(** * iOSynthesis: the device extraction pipeline of QuantumForensix

    A shallow embedding of [iOSynthesis.c].  The program is a straight
    line of calls over four global pointers, the local file system and
    three external libraries (libimobiledevice, sqlite3, OpenSSL).  The
    embedding keeps that shape: one state record for the process, one
    record describing how the outside world answers, and a small state
    monad whose second outcome stands for the places where the C code
    has no defined behaviour. *)

From stdpp Require Import gmap strings list fin_maps pretty sorting.
From Stdlib Require Import ZArith Ascii.

Local Open Scope Z_scope.
Local Set Warnings "-register-all".

(** ** Text *)

(** Escapes are not interpreted inside string literals, so the line feed
    of the C literals is spelled out. *)
Definition LF : string := String "010"%char EmptyString.

(** What glibc's [printf] family writes for [%s]: the string, or the six
    characters [(null)] when handed a null pointer (ISO C leaves that
    case undefined). *)
Definition fmt_s (p : option string) : string :=
  match p with
  | Some s => s
  | None => "(null)"
  end.

Fixpoint take_s (n : nat) (s : string) : string :=
  match n, s with
  | S n', String c s' => String c (take_s n' s')
  | _, _ => EmptyString
  end.

Fixpoint drop_s (n : nat) (s : string) : string :=
  match n, s with
  | S n', String _ s' => drop_s n' s'
  | _, _ => s
  end.

Definition MAX_FILENAME_LEN : nat := 256.
Definition ENCRYPTION_KEY : string := "iOSynthesisSecretKey123".

(** [snprintf(buf, size, ...)] keeps at most [size - 1] characters of the
    formatted text. *)
Definition snprintf (size : nat) (formatted : string) : string :=
  take_s (size - 1) formatted.

(** ** Property lists (libplist) *)

Inductive plist : Type :=
| PString (s : string)
| PUint (n : Z)
| PBool (b : bool)
| PArray (items : list plist)
| PDict (entries : list (string * plist)).

Definition plist_array_get_size (p : plist) : nat :=
  match p with
  | PArray items => List.length items
  | _ => 0%nat
  end.

Definition plist_array_get_item (p : plist) (i : nat) : option plist :=
  match p with
  | PArray items => items !! i
  | _ => None
  end.

Fixpoint dict_find (key : string) (entries : list (string * plist)) : option plist :=
  match entries with
  | [] => None
  | (k, v) :: rest => if String.eqb k key then Some v else dict_find key rest
  end.

(** [plist_dict_get_item] answers NULL for a NULL node, for a node that
    is not a dictionary and for a missing key. *)
Definition plist_dict_get_item (node : option plist) (key : string) : option plist :=
  match node with
  | Some (PDict entries) => dict_find key entries
  | _ => None
  end.

(** [if (node) plist_get_string_val(node, &val)] with [val] initialised to
    NULL: the value stays NULL unless the node is a string. *)
Definition plist_get_string_val (node : option plist) : option string :=
  match node with
  | Some (PString s) => Some s
  | _ => None
  end.

(** ** The copied message store (sqlite3)

    The two tables the query names, with the columns it reads.  A column
    value may be SQL NULL. *)

Record message_row := MessageRow {
  m_date : option Z;
  m_handle_id : option Z;
  m_text : option string
}.

Record handle_row := HandleRow {
  h_ROWID : Z;
  h_id : option string
}.

Record database := Database {
  message : list message_row;
  handle : list handle_row
}.

(** One result row of the statement: the three selected columns, as
    [sqlite3_column_text] returns them (NULL for SQL NULL). *)
Definition result_row : Type := (option string * option string * option string)%type.

(** ** The process state *)

Abbreviation addr := nat.

Inductive object : Type :=
| ODevice
| OLockdown
| OAfc
| OInstproxy
| OService (name : string)
| OCString (s : string)
| OPlist
| OSqlite
| OStmt.

(** The four globals of the program, the allocations made through the
    libraries, the local files, and what was printed.  A cell of [heap]
    is [Some o] while the allocation is live and [None] once released;
    an address is the index of its cell, so addresses are never reused.
    [calls] is a ghost log of the functions entered. *)
Record World := mkWorld {
  device : option addr;
  lockdown : option addr;
  afc : option addr;
  udid : option addr;
  heap : list (option object);
  files : gmap string string;
  console : list string;
  calls : list string
}.

Definition set_device (p : option addr) (w : World) : World :=
  mkWorld p (lockdown w) (afc w) (udid w) (heap w) (files w) (console w) (calls w).
Definition set_lockdown (p : option addr) (w : World) : World :=
  mkWorld (device w) p (afc w) (udid w) (heap w) (files w) (console w) (calls w).
Definition set_afc (p : option addr) (w : World) : World :=
  mkWorld (device w) (lockdown w) p (udid w) (heap w) (files w) (console w) (calls w).
Definition set_udid (p : option addr) (w : World) : World :=
  mkWorld (device w) (lockdown w) (afc w) p (heap w) (files w) (console w) (calls w).
Definition set_heap (h : list (option object)) (w : World) : World :=
  mkWorld (device w) (lockdown w) (afc w) (udid w) h (files w) (console w) (calls w).
Definition set_files (f : gmap string string) (w : World) : World :=
  mkWorld (device w) (lockdown w) (afc w) (udid w) (heap w) f (console w) (calls w).
Definition set_console (c : list string) (w : World) : World :=
  mkWorld (device w) (lockdown w) (afc w) (udid w) (heap w) (files w) c (calls w).
Definition set_calls (c : list string) (w : World) : World :=
  mkWorld (device w) (lockdown w) (afc w) (udid w) (heap w) (files w) (console w) c.

(** The state at process start: the globals are NULL, nothing is
    allocated, nothing was printed. *)
Definition init_world (disk : gmap string string) : World :=
  mkWorld None None None None [] disk [] [].

Definition live (w : World) (a : addr) (o : object) : Prop :=
  heap w !! a = Some (Some o).

Definition released (w : World) (a : addr) : Prop :=
  heap w !! a = Some None.

(** ** Outcomes

    [Done] is a normal return.  [Fault] is a step ISO C leaves undefined
    and on which glibc stops the process: releasing an allocation twice,
    passing a null stream to stdio or a null context to the cipher,
    reading through a pointer whose target was released. *)
Inductive outcome (A : Type) : Type :=
| Done (a : A) (w : World)
| Fault (w : World).
Arguments Done {A} a w.
Arguments Fault {A} w.

Definition M (A : Type) : Type := World → outcome A.

Definition final_world {A} (o : outcome A) : World :=
  match o with
  | Done _ w => w
  | Fault w => w
  end.

Definition ret {A} (a : A) : M A := λ w, Done a w.

Definition bind {A B} (m : M A) (k : A → M B) : M B :=
  λ w, match m w with
       | Done a w' => k a w'
       | Fault w' => Fault w'
       end.

Notation "'let*' x ':=' m 'in' k" := (bind m (λ x, k))
  (at level 10, x name, m at level 100, k at level 200).
Notation "m ';;' k" := (bind m (λ _, k))
  (at level 100, k at level 200, right associativity).

Definition fault {A} : M A := λ w, Fault w.
Definition gets {A} (f : World → A) : M A := λ w, Done (f w) w.
Definition modify (f : World → World) : M unit := λ w, Done () (f w).

Definition printf (text : string) : M unit :=
  modify (λ w, set_console (console w ++ [text]) w).

Definition enter (fn : string) : M unit :=
  modify (λ w, set_calls (calls w ++ [fn]) w).

(** Allocation by a library: a new cell at the end of the heap. *)
Definition alloc (o : object) : M addr :=
  λ w, Done (length (heap w)) (set_heap (heap w ++ [Some o]) w).

(** The release functions ([idevice_free], [lockdownd_client_free],
    [afc_client_free], [instproxy_client_free],
    [lockdownd_service_descriptor_free], [plist_free], [free], the sqlite
    closers): nothing on NULL, the cell is emptied when it is live, and a
    fault when it is not. *)
Definition release (p : option addr) : M unit :=
  λ w, match p with
       | None => Done () w
       | Some a =>
           match heap w !! a with
           | Some (Some _) => Done () (set_heap (<[a := None]> (heap w)) w)
           | _ => Fault w
           end
       end.

(** Reading the C string a [char *] points to, for [%s]. *)
Definition read_cstr (p : option addr) : M (option string) :=
  λ w, match p with
       | None => Done None w
       | Some a =>
           match heap w !! a with
           | Some (Some (OCString s)) => Done (Some s) w
           | _ => Fault w
           end
       end.

(** ** The outside world

    How the device, the libraries and the local disk answer during one
    run.  Each field is the answer of one external call of the program;
    the cipher and the SQL date function are the libraries' own
    functions. *)
Record Env := mkEnv {
  (* libimobiledevice *)
  idevice_new_ok : bool;
  handshake_ok : bool;
  device_udid : option string;
  start_service_ok : string → bool;
  afc_client_new_ok : bool;
  instproxy_client_new_ok : bool;
  instproxy_browse : option plist;
  remote_file : string → option string;
  (* sqlite3 *)
  sqlite3_open_ok : bool;
  sqlite3_decode : string → option database;
  sqlite3_datetime : Z → option string;
  (* stdio *)
  fopen_r_ok : string → bool;
  fopen_w_ok : string → bool;
  fwrite_ok : string → bool;
  (* OpenSSL: what a context initialised with this key and this IV, having
     absorbed these bytes, emits for the next input, and at the end *)
  cipher_ctx_new_ok : bool;
  evp_update : string → option string → string → string → string;
  evp_final : string → option string → string → string;
  (* the eight bytes that follow the key literal in the binary *)
  rodata_tail : string;
  (* time.h *)
  time_now : Z;
  ctime : Z → string
}.

(** *** The query of the message extractor *)

Definition sql : string :=
  "SELECT datetime(message.date, 'unixepoch') as date, " +:+
  "handle.id as phone_number, message.text " +:+
  "FROM message LEFT JOIN handle ON message.handle_id = handle.ROWID " +:+
  "ORDER BY message.date DESC;".

(** [message LEFT JOIN handle ON message.handle_id = handle.ROWID]: every
    message paired with each handle row it matches, or once with no
    handle row when it matches none. *)
Definition join_matches (m : message_row) (hs : list handle_row) : list handle_row :=
  filter (λ h, m_handle_id m = Some (h_ROWID h)) hs.

Definition left_join_one (hs : list handle_row) (m : message_row)
  : list (message_row * option handle_row) :=
  match join_matches m hs with
  | [] => [(m, None)]
  | found => map (λ h, (m, Some h)) found
  end.

Definition left_join (ms : list message_row) (hs : list handle_row)
  : list (message_row * option handle_row) :=
  concat (map (left_join_one hs) ms).

(** SQLite's order on the date column: NULL sorts below every integer. *)
Definition date_leb (a b : option Z) : bool :=
  match a, b with
  | None, _ => true
  | Some _, None => false
  | Some x, Some y => (x <=? y)%Z
  end.

(** [ORDER BY message.date DESC], as an insertion sort that keeps rows
    of equal date in join order (SQLite leaves their order open). *)
Fixpoint insert_desc (r : message_row * option handle_row)
    (sorted : list (message_row * option handle_row))
  : list (message_row * option handle_row) :=
  match sorted with
  | [] => [r]
  | r' :: rest =>
      if date_leb (m_date (fst r')) (m_date (fst r))
      then r :: r' :: rest
      else r' :: insert_desc r rest
  end.

Definition order_by_date_desc (rows : list (message_row * option handle_row))
  : list (message_row * option handle_row) :=
  foldr insert_desc [] rows.

Section Program.

Context (E : Env).

(** The three selected columns of one joined row. *)
Definition select_columns (r : message_row * option handle_row) : result_row :=
  (d ← m_date (fst r); sqlite3_datetime E d,
   h ← snd r; h_id h,
   m_text (fst r)).

Definition run_query (db : database) : list result_row :=
  map select_columns (order_by_date_desc (left_join (message db) (handle db))).

(** *** stdio

    A stream is the path it was opened on, or [None] for the null pointer
    a failed [fopen] returns.  Output is written through at once. *)

Definition fopen_w (path : string) : M (option string) :=
  if fopen_w_ok E path
  then modify (λ w, set_files (<[path := EmptyString]> (files w)) w);; ret (Some path)
  else ret None.

Definition fopen_r (path : string) : M (option string) :=
  λ w, if fopen_r_ok E path
       then match files w !! path with
            | Some _ => Done (Some path) w
            | None => Done None w
            end
       else Done None w.

Definition append_file (path text : string) (w : World) : World :=
  match files w !! path with
  | Some old => set_files (<[path := old +:+ text]> (files w)) w
  | None => w
  end.

(** [fprintf] and [fwrite] on a stream: a fault on the null stream, the
    text appended when the write succeeds, nothing stored when it
    fails.  glibc's [fwrite] returns before touching the stream when asked
    for zero bytes. *)
Definition fwrite (text : string) (stream : option string) : M unit :=
  match stream with
  | None => if (String.length text =? 0)%nat then ret () else fault
  | Some path =>
      if fwrite_ok E path then modify (append_file path text) else ret ()
  end.

Definition fprintf (stream : option string) (text : string) : M unit :=
  match stream with
  | None => fault
  | Some path =>
      if fwrite_ok E path then modify (append_file path text) else ret ()
  end.

Definition fclose (stream : option string) : M unit :=
  match stream with
  | None => fault
  | Some _ => ret ()
  end.

Definition remove (path : string) : M unit :=
  modify (λ w, set_files (delete path (files w)) w).

(** *** encrypt_file *)

Record cipher_ctx := CipherCtx {
  ctx_key : string;
  ctx_iv : option string;
  ctx_absorbed : string
}.

(** [EVP_EncryptInit_ex(ctx, EVP_aes_256_cbc(), NULL, ENCRYPTION_KEY, NULL)]:
    the cipher takes 32 key bytes at the address of the literal, which
    holds 23 characters and a terminator; the IV argument is NULL. *)
Definition cipher_key : string :=
  take_s 32 (ENCRYPTION_KEY +:+ String "000"%char (rodata_tail E)).

Definition EVP_EncryptInit_ex : cipher_ctx :=
  CipherCtx cipher_key None EmptyString.

Definition EVP_EncryptUpdate (ctx : cipher_ctx) (inbuf : string) : cipher_ctx * string :=
  (CipherCtx (ctx_key ctx) (ctx_iv ctx) (ctx_absorbed ctx +:+ inbuf),
   evp_update E (ctx_key ctx) (ctx_iv ctx) (ctx_absorbed ctx) inbuf).

Definition EVP_EncryptFinal_ex (ctx : cipher_ctx) : string :=
  evp_final E (ctx_key ctx) (ctx_iv ctx) (ctx_absorbed ctx).

(** [while ((inlen = fread(inbuf, 1, 1024, ifp)) > 0)]: [unread] is what
    the input stream has left.  The loop runs at most once per unread
    byte; [fuel] bounds it and is never exhausted when it exceeds the
    length of [unread] (lemma [encrypt_loop_existing]). *)
Fixpoint encrypt_loop (fuel : nat) (ctx : cipher_ctx) (unread : string)
    (ofp : option string) : M cipher_ctx :=
  match fuel with
  | O => fault
  | S fuel' =>
      let inbuf := take_s 1024 unread in
      if (String.length inbuf =? 0)%nat then ret ctx
      else
        let '(ctx', outbuf) := EVP_EncryptUpdate ctx inbuf in
        fwrite outbuf ofp;;
        encrypt_loop fuel' ctx' (drop_s 1024 unread) ofp
  end.

(** The input stream reads the file as it is at the first [fread], that
    is after [output_file] was opened and truncated; nothing else writes
    to [input_file] while the loop runs unless both names are one file,
    in which case the first [fread] already finds it empty.  The two
    streams and the cipher context live inside this call only and are
    not cells of [heap]; no result of the [EVP_*] calls is looked at. *)
Definition encrypt_file (input_file output_file : string) : M unit :=
  enter "encrypt_file";;
  let* ifp := fopen_r input_file in
  let* ofp := fopen_w output_file in
  if negb (cipher_ctx_new_ok E) then fault
  else
    let ctx := EVP_EncryptInit_ex in
    match ifp with
    | None => fault
    | Some src =>
        let* unread := gets (λ w, default EmptyString (files w !! src)) in
        let* ctx := encrypt_loop (S (String.length unread)) ctx unread ofp in
        fwrite (EVP_EncryptFinal_ex ctx) ofp;;
        fclose ifp;;
        fclose ofp
    end.

(** *** connect_to_device *)

(** [idevice_new(&device, NULL)] *)
Definition idevice_new : M bool :=
  if idevice_new_ok E
  then let* a := alloc ODevice in modify (set_device (Some a));; ret true
  else ret false.

(** [lockdownd_client_new_with_handshake(device, &lockdown, "iOSynthesis")] *)
Definition lockdownd_client_new_with_handshake : M bool :=
  if handshake_ok E
  then let* a := alloc OLockdown in modify (set_lockdown (Some a));; ret true
  else ret false.

(** [lockdownd_get_device_udid(lockdown, &udid)]: the identifier is
    returned in memory the caller owns; on failure [udid] is left as it
    was.  The program does not look at the result code. *)
Definition lockdownd_get_device_udid : M unit :=
  match device_udid E with
  | Some s => let* a := alloc (OCString s) in modify (set_udid (Some a))
  | None => ret ()
  end.

(** [lockdownd_start_service(lockdown, name, &service)]: the descriptor,
    or NULL on failure. *)
Definition lockdownd_start_service (name : string) : M (option addr) :=
  if start_service_ok E name
  then let* a := alloc (OService name) in ret (Some a)
  else ret None.

(** [afc_client_new(device, service, &afc)] *)
Definition afc_client_new : M bool :=
  if afc_client_new_ok E
  then let* a := alloc OAfc in modify (set_afc (Some a));; ret true
  else ret false.

Definition connect_to_device : M Z :=
  enter "connect_to_device";;
  let* ok := idevice_new in
  if negb ok then
    printf ("Error: Unable to connect to device." +:+ LF);;
    ret (-1)
  else
  let* ok := lockdownd_client_new_with_handshake in
  if negb ok then
    printf ("Error: Unable to establish lockdown connection." +:+ LF);;
    (let* d := gets device in release d);;
    ret (-1)
  else
  lockdownd_get_device_udid;;
  let* service := lockdownd_start_service "com.apple.afc" in
  match service with
  | None =>
      printf ("Error: Unable to start AFC service." +:+ LF);;
      (let* l := gets lockdown in release l);;
      (let* d := gets device in release d);;
      ret (-1)
  | Some _ =>
      let* ok := afc_client_new in
      if negb ok then
        printf ("Error: Unable to create AFC client." +:+ LF);;
        (let* l := gets lockdown in release l);;
        (let* d := gets device in release d);;
        ret (-1)
      else
        release service;;
        ret 0
  end.

(** *** disconnect_from_device

    [if (p) free(p)] for each global; the globals keep their values. *)
Definition disconnect_from_device : M unit :=
  enter "disconnect_from_device";;
  (let* p := gets afc in release p);;
  (let* p := gets lockdown in release p);;
  (let* p := gets device in release p);;
  (let* p := gets udid in release p).

(** *** extract_sms_messages *)

(** Modelled from the spec: [copy_file], the Remote File Fetcher of
    section 4.2, which the source calls and does not define.  It copies
    the whole remote file to the local path over the file-transfer
    channel and fails on any read or write failure. *)
Definition copy_file (remote_path local_path : string) : M Z :=
  match remote_file E remote_path with
  | None => ret (-1)
  | Some bytes =>
      let* out := fopen_w local_path in
      match out with
      | None => ret (-1)
      | Some _ =>
          if fwrite_ok E local_path
          then fwrite bytes out;; fclose out;; ret 0
          else ret (-1)
      end
  end.

(** [sqlite3_open(local_path, &db)]: a connection handle is handed out
    whether or not the open succeeds. *)
Definition sqlite3_open : M (bool * addr) :=
  let* a := alloc OSqlite in ret (sqlite3_open_ok E, a).

(** [sqlite3_prepare_v2(db, sql, -1, &stmt, NULL)]: the statement
    compiles when the file holds a database with the two tables; its
    rows are then the rows of the query. *)
Definition sqlite3_prepare_v2 (local_path : string) : M (option (addr * list result_row)) :=
  let* content := gets (λ w, files w !! local_path) in
  match content ≫= sqlite3_decode E with
  | None => ret None
  | Some db => let* a := alloc OStmt in ret (Some (a, run_query db))
  end.

(** [while (sqlite3_step(stmt) == SQLITE_ROW) fprintf(output, "%s,%s,%s\n", ...)] *)
Fixpoint write_rows (rows : list result_row) (output : option string) : M unit :=
  match rows with
  | [] => ret ()
  | (c0, c1, c2) :: rest =>
      fprintf output (fmt_s c0 +:+ "," +:+ fmt_s c1 +:+ "," +:+ fmt_s c2 +:+ LF);;
      write_rows rest output
  end.

Definition extract_sms_messages (output_file : string) : M Z :=
  enter "extract_sms_messages";;
  let path := "/var/mobile/Library/SMS/sms.db" in
  let* id := (let* p := gets udid in read_cstr p) in
  let local_path := snprintf MAX_FILENAME_LEN (fmt_s id +:+ "_sms.db") in
  let* rc := copy_file path local_path in
  if negb (rc =? 0)%Z then
    printf ("Failed to copy SMS database." +:+ LF);;
    ret (-1)
  else
  let* opened := sqlite3_open in
  let db := Some (snd opened) in
  if negb (fst opened) then
    printf ("Failed to open SMS database." +:+ LF);;
    ret (-1)
  else
  let* output := fopen_w output_file in
  match output with
  | None =>
      printf ("Failed to open output file." +:+ LF);;
      release db;;
      ret (-1)
  | Some _ =>
      let* prepared := sqlite3_prepare_v2 local_path in
      match prepared with
      | None =>
          printf ("Failed to prepare SQL statement." +:+ LF);;
          release db;;
          fclose output;;
          ret (-1)
      | Some (stmt, rows) =>
          fprintf output ("Date,Phone Number,Message" +:+ LF);;
          write_rows rows output;;
          release (Some stmt);;
          release db;;
          fclose output;;
          let encrypted_file := snprintf MAX_FILENAME_LEN (output_file +:+ ".enc") in
          encrypt_file output_file encrypted_file;;
          remove output_file;;
          printf ("SMS messages extracted and encrypted to " +:+ encrypted_file +:+ LF);;
          ret 0
      end
  end.

(** *** extract_installed_apps *)

(** [instproxy_client_new(device, service, &ipc)] *)
Definition instproxy_client_new : M (option addr) :=
  if instproxy_client_new_ok E
  then let* a := alloc OInstproxy in ret (Some a)
  else ret None.

(** The body of [for (i = 0; i < app_count; i++)], run for the [todo]
    indices from [i] on.  The three strings are allocated by
    [plist_get_string_val] and freed at the end of the same iteration. *)
Fixpoint apps_loop (todo : nat) (i : nat) (apps : plist) (output : option string) : M unit :=
  match todo with
  | O => ret ()
  | S todo' =>
      let app := plist_array_get_item apps i in
      let app_name := plist_get_string_val (plist_dict_get_item app "CFBundleName") in
      let bundle_id := plist_get_string_val (plist_dict_get_item app "CFBundleIdentifier") in
      let version := plist_get_string_val (plist_dict_get_item app "CFBundleVersion") in
      match app_name, bundle_id, version with
      | Some n, Some b, Some v => fprintf output (n +:+ "," +:+ b +:+ "," +:+ v +:+ LF)
      | _, _, _ => ret ()
      end;;
      apps_loop todo' (S i) apps output
  end.

Definition extract_installed_apps : M Z :=
  enter "extract_installed_apps";;
  let* service := lockdownd_start_service "com.apple.mobile.installation_proxy" in
  match service with
  | None =>
      printf ("Error: Unable to start installation proxy service." +:+ LF);;
      ret (-1)
  | Some _ =>
  let* ipc := instproxy_client_new in
  match ipc with
  | None =>
      printf ("Error: Unable to create installation proxy client." +:+ LF);;
      release service;;
      ret (-1)
  | Some _ =>
  let* opts := alloc OPlist in
  let client_opts := Some opts in
  match instproxy_browse E with
  | None =>
      printf ("Error: Unable to retrieve installed apps." +:+ LF);;
      release client_opts;;
      release ipc;;
      ret (-1)
  | Some listing =>
  let* apps := alloc OPlist in
  let* output := fopen_w "installed_apps.csv" in
  match output with
  | None =>
      printf ("Error: Unable to open output file." +:+ LF);;
      release (Some apps);;
      release client_opts;;
      release ipc;;
      ret (-1)
  | Some _ =>
      fprintf output ("App Name,Bundle ID,Version" +:+ LF);;
      let app_count := plist_array_get_size listing in
      apps_loop app_count 0 listing output;;
      fclose output;;
      printf ("Installed apps list saved to installed_apps.csv" +:+ LF);;
      release (Some apps);;
      release client_opts;;
      release ipc;;
      ret 0
  end end end end.

(** *** generate_report *)

Definition generate_report (output_file : string) : M unit :=
  enter "generate_report";;
  let* report := fopen_w output_file in
  match report with
  | None => printf ("Error: Unable to create report file." +:+ LF)
  | Some _ =>
      fprintf report ("iOSynthesis Forensic Report" +:+ LF);;
      fprintf report ("==========================" +:+ LF +:+ LF);;
      let now := time_now E in
      fprintf report ("Report generated on: " +:+ ctime E now);;
      let* id := (let* p := gets udid in read_cstr p) in
      fprintf report ("Device UDID: " +:+ fmt_s id +:+ LF +:+ LF);;
      fprintf report ("1. Extracted Data" +:+ LF);;
      fprintf report ("   - SMS messages: sms_messages.csv.enc" +:+ LF);;
      fprintf report ("   - Installed apps: installed_apps.csv" +:+ LF);;
      fclose report;;
      printf ("Forensic report generated: " +:+ output_file +:+ LF)
  end.

(** *** main *)

(** [printf("Connected to iOS device (UDID: %s).\n", udid)] *)
Definition print_connected : M unit :=
  let* id := (let* p := gets udid in read_cstr p) in
  printf ("Connected to iOS device (UDID: " +:+ fmt_s id +:+ ")." +:+ LF).

Definition main : M Z :=
  let* rc := connect_to_device in
  if negb (rc =? 0)%Z then ret 1
  else
    print_connected;;
    extract_sms_messages "sms_messages.csv";;
    extract_installed_apps;;
    generate_report "forensic_report.txt";;
    disconnect_from_device;;
    printf ("Disconnected from iOS device." +:+ LF);;
    ret 0.

End Program.

(** ** Scenarios

    Concrete answers of the outside world, used to run the program.  The
    cipher is a stand-in that passes its input through and closes with
    one marker byte; dates are shown as their decimal number. *)

Definition scenario (afc_ok : bool) (remote : option string)
    (can_write : string → bool) (db : option database) (apps : option plist) : Env :=
  mkEnv true true (Some "00008030-001C2D3E4F5A") (λ _, true) afc_ok true apps
        (λ _, remote)
        true (λ _, db) (λ t, Some (pretty t))
        (λ _, true) (λ _, true) can_write
        true (λ _ _ _ inbuf, inbuf) (λ _ _ _, "#") "rodata.."
        1700000000 (λ _, "Tue Nov 14 22:13:20 2023" +:+ LF).

Definition store_of_three : database :=
  Database
    [ MessageRow (Some 100) (Some 1) (Some "first");
      MessageRow (Some 50) (Some 1) (Some "second");
      MessageRow (Some 200) (Some 1) (Some "third") ]
    [ HandleRow 1 (Some "+15550100") ].

Definition store_with_unknown_sender : database :=
  Database [ MessageRow (Some 100) (Some 7) (Some "hi") ] [].

Definition listing_A_B_C : plist :=
  PArray
    [ PDict [("CFBundleName", PString "A"); ("CFBundleIdentifier", PString "com.a");
             ("CFBundleVersion", PString "1.0")];
      PDict [("CFBundleName", PString "B"); ("CFBundleIdentifier", PString "com.b")];
      PDict [("CFBundleName", PString "C"); ("CFBundleIdentifier", PString "com.c");
             ("CFBundleVersion", PString "3")] ].

(** Everything succeeds. *)
Definition all_well : Env :=
  scenario true (Some "SQLite format 3") (λ _, true) (Some store_of_three) (Some listing_A_B_C).

(** The AFC client cannot be created. *)
Definition afc_client_refused : Env :=
  scenario false (Some "SQLite format 3") (λ _, true) (Some store_of_three) (Some listing_A_B_C).

(** The message store cannot be fetched from the device. *)
Definition fetch_fails : Env :=
  scenario true None (λ _, true) (Some store_of_three) (Some listing_A_B_C).

(** Writes to the sealed file are refused (a full device, a quota). *)
Definition sealed_file_unwritable : Env :=
  scenario true (Some "SQLite format 3")
    (λ path, negb (String.eqb path "sms_messages.csv.enc"))
    (Some store_of_three) (Some listing_A_B_C).

(** The unknown sender: one message whose [handle_id] matches no row of
    [handle]. *)
Definition unknown_sender : Env :=
  scenario true (Some "SQLite format 3") (λ _, true)
    (Some store_with_unknown_sender) (Some listing_A_B_C).

(** *** Variations of a scenario *)

Definition with_device (discovery handshake : bool) (afc_service afc_client : bool)
    (E : Env) : Env :=
  mkEnv discovery handshake (device_udid E)
        (λ name, if String.eqb name "com.apple.afc" then afc_service
                 else start_service_ok E name)
        afc_client (instproxy_client_new_ok E) (instproxy_browse E) (remote_file E)
        (sqlite3_open_ok E) (sqlite3_decode E) (sqlite3_datetime E)
        (fopen_r_ok E) (fopen_w_ok E) (fwrite_ok E)
        (cipher_ctx_new_ok E) (evp_update E) (evp_final E) (rodata_tail E)
        (time_now E) (ctime E).

Definition with_stdio (can_read can_open can_write : string → bool) (ctx_ok : bool)
    (E : Env) : Env :=
  mkEnv (idevice_new_ok E) (handshake_ok E) (device_udid E) (start_service_ok E)
        (afc_client_new_ok E) (instproxy_client_new_ok E) (instproxy_browse E) (remote_file E)
        (sqlite3_open_ok E) (sqlite3_decode E) (sqlite3_datetime E)
        can_read can_open can_write
        ctx_ok (evp_update E) (evp_final E) (rodata_tail E)
        (time_now E) (ctime E).

Definition with_inventory (service client : bool) (listing : option plist) (E : Env) : Env :=
  mkEnv (idevice_new_ok E) (handshake_ok E) (device_udid E)
        (λ name, if String.eqb name "com.apple.mobile.installation_proxy" then service
                 else start_service_ok E name)
        (afc_client_new_ok E) client listing (remote_file E)
        (sqlite3_open_ok E) (sqlite3_decode E) (sqlite3_datetime E)
        (fopen_r_ok E) (fopen_w_ok E) (fwrite_ok E)
        (cipher_ctx_new_ok E) (evp_update E) (evp_final E) (rodata_tail E)
        (time_now E) (ctime E).

Definition with_store (open_ok : bool) (decode : string → option database) (E : Env) : Env :=
  mkEnv (idevice_new_ok E) (handshake_ok E) (device_udid E) (start_service_ok E)
        (afc_client_new_ok E) (instproxy_client_new_ok E) (instproxy_browse E) (remote_file E)
        open_ok decode (sqlite3_datetime E)
        (fopen_r_ok E) (fopen_w_ok E) (fwrite_ok E)
        (cipher_ctx_new_ok E) (evp_update E) (evp_final E) (rodata_tail E)
        (time_now E) (ctime E).


(** The same world and binary, with other bytes after the key literal. *)
Definition with_tail (tail : string) (E : Env) : Env :=
  mkEnv (idevice_new_ok E) (handshake_ok E) (device_udid E) (start_service_ok E)
        (afc_client_new_ok E) (instproxy_client_new_ok E) (instproxy_browse E) (remote_file E)
        (sqlite3_open_ok E) (sqlite3_decode E) (sqlite3_datetime E)
        (fopen_r_ok E) (fopen_w_ok E) (fwrite_ok E)
        (cipher_ctx_new_ok E) (evp_update E) (evp_final E) tail
        (time_now E) (ctime E).

(** A file name of [n] characters. *)
Fixpoint name_of_length (n : nat) : string :=
  match n with
  | O => EmptyString
  | S n' => String "a"%char (name_of_length n')
  end.

(** No device is attached. *)
Definition no_device : Env := with_device false true true true all_well.

(** The device refuses the handshake (it is locked, or not paired). *)
Definition handshake_refused : Env := with_device true false true true all_well.

(** The AFC service cannot be started. *)
Definition afc_service_refused : Env := with_device true true false true all_well.

(** The fetched file cannot be opened as a database connection. *)
Definition store_unopenable : Env := with_store false (sqlite3_decode all_well) all_well.

(** The fetched file is not a database with the two tables. *)
Definition store_unreadable : Env := with_store true (λ _, None) all_well.

(** Nothing can be written to the inventory file. *)
Definition inventory_unwritable : Env :=
  with_stdio (λ _, true) (λ _, true) (λ path, negb (String.eqb path "installed_apps.csv"))
    true all_well.

(** The report file cannot be opened. *)
Definition report_unopenable : Env :=
  with_stdio (λ _, true) (λ path, negb (String.eqb path "forensic_report.txt")) (λ _, true)
    true all_well.

(** No cipher context can be allocated. *)
Definition no_cipher_context : Env :=
  with_stdio (λ _, true) (λ _, true) (λ _, true) false all_well.

(** The sealed file cannot be opened (a read-only file or a directory of
    that name is in the way). *)
Definition sealed_file_unopenable : Env :=
  with_stdio (λ _, true) (λ path, negb (String.eqb path "sms_messages.csv.enc")) (λ _, true)
    true all_well.

(** The states a run of [main] passes through, for a given scenario. *)
Definition opened (E : Env) (disk : gmap string string) : World :=
  final_world (connect_to_device E (init_world disk)).

Definition greeted (E : Env) (disk : gmap string string) : World :=
  final_world (print_connected (opened E disk)).

Definition after_messages (E : Env) (disk : gmap string string) : World :=
  final_world (extract_sms_messages E "sms_messages.csv" (greeted E disk)).

(** ** Specification vocabulary *)

(** How a run ended, as a predicate on the outcome: [Q] for a return,
    [F] for a fault. *)
Definition sat {A} (o : outcome A) (Q : A → World → Prop) (F : World → Prop) : Prop :=
  match o with
  | Done a w => Q a w
  | Fault w => F w
  end.

Definition never : World → Prop := λ _, False.
Definition anyhow : World → Prop := λ _, True.

(** [w'] has the globals of [w] and the heap of [w] followed by new
    cells: nothing that was allocated in [w] was touched. *)
Record extends (w w' : World) : Prop := Extends {
  ext_device : device w' = device w;
  ext_lockdown : lockdown w' = lockdown w;
  ext_afc : afc w' = afc w;
  ext_udid : udid w' = udid w;
  ext_heap : ∃ more, heap w' = heap w ++ more
}.

Definition files_except (p : string) (w w' : World) : Prop :=
  ∀ q, q ≠ p → files w' !! q = files w !! q.

Definition concat_s (texts : list string) : string :=
  foldr String.append EmptyString texts.

(** *** Inventory rows *)

Definition app_field (app : plist) (key : string) : option string :=
  plist_get_string_val (plist_dict_get_item (Some app) key).

Definition app_complete (app : plist) : Prop :=
  is_Some (app_field app "CFBundleName") ∧
  is_Some (app_field app "CFBundleIdentifier") ∧
  is_Some (app_field app "CFBundleVersion").

Global Instance app_complete_dec app : Decision (app_complete app).
Proof. unfold app_complete. apply _. Defined.

Definition app_row_text (app : plist) : string :=
  default EmptyString (app_field app "CFBundleName") +:+ "," +:+
  default EmptyString (app_field app "CFBundleIdentifier") +:+ "," +:+
  default EmptyString (app_field app "CFBundleVersion") +:+ LF.

Definition array_items (p : plist) : list plist :=
  match p with
  | PArray items => items
  | _ => []
  end.

(** *** The device identifier and the name of the local copy *)

(** The string [udid] points to, if it points to one. *)
Definition udid_string (w : World) : option string :=
  match udid w with
  | Some a =>
      match heap w !! a with
      | Some (Some (OCString s)) => Some s
      | _ => None
      end
  | None => None
  end.

(** [udid] is NULL or points to a live string. *)
Definition udid_ok (w : World) : Prop :=
  match udid w with
  | Some a => ∃ s, live w a (OCString s)
  | None => True
  end.

Definition remote_store : string := "/var/mobile/Library/SMS/sms.db".

Definition local_copy (w : World) : string :=
  snprintf MAX_FILENAME_LEN (fmt_s (udid_string w) +:+ "_sms.db").

Definition sealed_name (output_file : string) : string :=
  snprintf MAX_FILENAME_LEN (output_file +:+ ".enc").

(** *** Sessions *)

Definition session_open (w : World) : Prop :=
  ∃ d l a,
    device w = Some d ∧ lockdown w = Some l ∧ afc w = Some a ∧
    live w d ODevice ∧ live w l OLockdown ∧ live w a OAfc ∧ udid_ok w.

Definition released_ptr (w : World) (p : option addr) : Prop :=
  match p with
  | Some a => released w a
  | None => True
  end.

Definition session_closed (w : World) : Prop :=
  is_Some (device w) ∧ is_Some (lockdown w) ∧ is_Some (afc w) ∧
  released_ptr w (afc w) ∧ released_ptr w (lockdown w) ∧
  released_ptr w (device w) ∧ released_ptr w (udid w).

(** *** The manifest *)

Definition manifest (E : Env) (id : option string) : string :=
  concat_s
    [ "iOSynthesis Forensic Report" +:+ LF;
      "==========================" +:+ LF +:+ LF;
      "Report generated on: " +:+ ctime E (time_now E);
      "Device UDID: " +:+ fmt_s id +:+ LF +:+ LF;
      "1. Extracted Data" +:+ LF;
      "   - SMS messages: sms_messages.csv.enc" +:+ LF;
      "   - Installed apps: installed_apps.csv" +:+ LF ].

(** *** Rows of the join *)

Definition joined : Type := (message_row * option handle_row)%type.

(** [r1] may come before [r2] in the result: its date is not below. *)
Definition date_desc (r1 r2 : joined) : Prop :=
  date_leb (m_date (fst r2)) (m_date (fst r1)) = true.

(** *** Message rows and the sealed bytes *)

Definition row_text (r : result_row) : string :=
  fmt_s (fst (fst r)) +:+ "," +:+ fmt_s (snd (fst r)) +:+ "," +:+ fmt_s (snd r) +:+ LF.

(** The loop of [encrypt_file] without the file: the context it ends
    in and the bytes it emits. *)
Fixpoint encrypt_chunks (E : Env) (fuel : nat) (ctx : cipher_ctx) (unread : string)
  : cipher_ctx * string :=
  match fuel with
  | O => (ctx, EmptyString)
  | S fuel' =>
      let inbuf := take_s 1024 unread in
      if (String.length inbuf =? 0)%nat then (ctx, EmptyString)
      else
        let '(ctx', outbuf) := EVP_EncryptUpdate E ctx inbuf in
        let '(ctx'', rest) := encrypt_chunks E fuel' ctx' (drop_s 1024 unread) in
        (ctx'', outbuf +:+ rest)
  end.

(** What [encrypt_file] stores for a plaintext when nothing fails. *)
Definition sealed (E : Env) (plaintext : string) : string :=
  let '(ctx, body) :=
    encrypt_chunks E (S (String.length plaintext)) (EVP_EncryptInit_ex E) plaintext in
  body +:+ EVP_EncryptFinal_ex E ctx.

(** *** Inventory rows emitted by the loop *)

(** The rows the loop emits for the indices [i, i + todo). *)
Fixpoint rows_between (i todo : nat) (listing : plist) : list string :=
  match todo with
  | O => []
  | S todo' =>
      match plist_array_get_item listing i with
      | Some app =>
          if decide (app_complete app)
          then app_row_text app :: rows_between (S i) todo' listing
          else rows_between (S i) todo' listing
      | None => rows_between (S i) todo' listing
      end
  end.

(** *** The sealer across runs *)

(** Nothing hinders the sealing of [input_file] into [output_file]. *)
Definition seal_unhindered (E : Env) (input_file output_file : string) : Prop :=
  fopen_r_ok E input_file = true ∧ fopen_w_ok E output_file = true ∧
  fwrite_ok E output_file = true ∧ cipher_ctx_new_ok E = true.

(** Two runs use the same cipher library and the same binary. *)
Definition same_cipher (E1 E2 : Env) : Prop :=
  evp_update E1 = evp_update E2 ∧ evp_final E1 = evp_final E2 ∧
  rodata_tail E1 = rodata_tail E2.

(** *** The claims that fail, as predicates *)

Fixpoint contains (needle text : string) : bool :=
  String.prefix needle text ||
  match text with
  | String _ rest => contains needle rest
  | EmptyString => false
  end.

(** Every artifact the report of a finished run names is on disk. *)
Definition report_is_honest (E : Env) (disk : gmap string string) : Prop :=
  ∀ w report artifact,
    main E (init_world disk) = Done 0 w →
    files w !! "forensic_report.txt" = Some report →
    artifact ∈ ["sms_messages.csv.enc"; "installed_apps.csv"] →
    contains artifact report = true →
    is_Some (files w !! artifact).

(** A message extraction that reached the seal step with the sealing
    hindered leaves the plaintext table in place. *)
Definition plaintext_kept_when_seal_fails (E : Env) (output_file : string)
    (w : World) : Prop :=
  ∀ r w',
    extract_sms_messages E output_file w = Done r w' →
    "encrypt_file" ∈ calls w' →
    ¬ seal_unhindered E output_file (sealed_name output_file) →
    is_Some (files w' !! output_file).

(** *** The open sequence *)

(** All four steps of [connect_to_device] succeed. *)
Definition open_succeeds (E : Env) : bool :=
  idevice_new_ok E && handshake_ok E && start_service_ok E "com.apple.afc" &&
  afc_client_new_ok E.

(** The cell holding the device identifier, when one is retrieved. *)
Definition udid_cell (E : Env) : list (option object) :=
  match device_udid E with
  | Some s => [Some (OCString s)]
  | None => []
  end.


(** *** The inventory sequence *)

(** The four steps of [extract_installed_apps] whose result it checks
    all succeed. *)
Definition inventory_succeeds (E : Env) : bool :=
  start_service_ok E "com.apple.mobile.installation_proxy" &&
  instproxy_client_new_ok E &&
  bool_decide (is_Some (instproxy_browse E)) &&
  fopen_w_ok E "installed_apps.csv".

(** *** Files that can be written *)

Definition writable (E : Env) (path : string) : Prop :=
  fopen_w_ok E path = true ∧ fwrite_ok E path = true.

(** *** The raw copy, by name *)

(** The name [extract_sms_messages] gives the fetched message store in
    a run that retrieved the identifier [device_udid E]. *)
Definition raw_copy_name (E : Env) : string :=
  snprintf MAX_FILENAME_LEN (fmt_s (device_udid E) +:+ "_sms.db").

(** ** Proof tools *)

Lemma append_nil_r s : s +:+ EmptyString = s.
Proof.
  induction s as [|c s IH]; [reflexivity|].
  change (String c (s +:+ EmptyString) = String c s). by rewrite IH.
Qed.

Lemma append_assoc s t u : (s +:+ t) +:+ u = s +:+ (t +:+ u).
Proof.
  induction s as [|c s IH]; [reflexivity|].
  change (String c ((s +:+ t) +:+ u) = String c (s +:+ (t +:+ u))). by rewrite IH.
Qed.

Lemma set_files_same w : set_files (files w) w = w.
Proof. by destruct w. Qed.

Lemma alloc_ext o d l a u h more f c cs :
  alloc o (mkWorld d l a u (h ++ more) f c cs) =
  Done (length h + length more)%nat (mkWorld d l a u (h ++ (more ++ [Some o])) f c cs).
Proof.
  unfold alloc, set_heap; cbn. by rewrite length_app, (assoc_L (++)).
Qed.

Lemma lookup_past {A} (h more : list A) k :
  (h ++ more) !! (length h + k)%nat = more !! k.
Proof.
  rewrite lookup_app_r by lia. f_equal. lia.
Qed.

Lemma release_null w : release None w = Done () w.
Proof. reflexivity. Qed.

Lemma release_ext k d l a u h more f c cs :
  release (Some (length h + k)%nat) (mkWorld d l a u (h ++ more) f c cs) =
  match more !! k with
  | Some (Some _) => Done () (mkWorld d l a u (h ++ <[k := None]> more) f c cs)
  | _ => Fault (mkWorld d l a u (h ++ more) f c cs)
  end.
Proof.
  unfold release, set_heap; cbn.
  rewrite lookup_app_r by lia.
  replace (length h + k - length h)%nat with k by lia.
  by rewrite insert_app_r.
Qed.

Ltac unfold_state :=
  unfold bind, ret, gets, modify, fault, printf, enter, read_cstr,
    set_device, set_lockdown, set_afc, set_udid, set_heap, set_files,
    set_console, set_calls, init_world.

Ltac unfold_stdio :=
  unfold fopen_w, fopen_r, fclose, fprintf, fwrite, remove, append_file.

Local Arguments alloc : simpl never.
Local Arguments release : simpl never.
Local Arguments snprintf : simpl never.
Local Arguments fmt_s : simpl never.
Local Arguments fprintf : simpl never.
Local Arguments fwrite : simpl never.

Ltac heap_step :=
  first [ rewrite alloc_ext | rewrite release_ext | rewrite release_null ]; cbn.

(** Start the symbolic run of a function on an arbitrary state: name
    the fields and write the heap as [h ++ []]. *)
Ltac open_world w :=
  let d := fresh "d" in let l := fresh "l" in let a := fresh "a" in
  let u := fresh "u" in let h := fresh "h" in let f := fresh "f" in
  let c := fresh "c" in let cs := fresh "cs" in
  destruct w as [d l a u h f c cs];
  match goal with |- sat _ ?Q _ => let post := fresh "post" in
    set (post := Q); rewrite <- (app_nil_r h); subst post end.

Ltac frame_goals :=
  repeat split; cbn; eauto; try discriminate;
  try (exists []; symmetry; apply app_nil_r);
  try (intros ? ?; cbn;
       first [ reflexivity | rewrite !lookup_insert_ne by congruence; reflexivity ]).

Section Stdio.
Context (E : Env).

Lemma fprintf_existing p text w old :
  files w !! p = Some old →
  fprintf E (Some p) text w =
  Done () (if fwrite_ok E p then set_files (<[p := old +:+ text]> (files w)) w else w).
Proof.
  intros Hp. unfold fprintf, modify, ret.
  destruct (fwrite_ok E p); [|done]. unfold append_file. by rewrite Hp.
Qed.

End Stdio.

Section Inventory.
Context (E : Env).

Lemma apps_loop_existing todo i listing p w old :
  files w !! p = Some old →
  apps_loop E todo i listing (Some p) w =
  Done () (if fwrite_ok E p
           then set_files (<[p := old +:+ concat_s (rows_between i todo listing)]> (files w)) w
           else w).
Proof.
  revert i w old. induction todo as [|todo IH]; intros i w old Hp; cbn [apps_loop rows_between].
  - cbn. rewrite append_nil_r, insert_id by done. rewrite set_files_same.
    by destruct (fwrite_ok E p).
  - unfold bind.
    destruct (plist_array_get_item listing i) as [app|].
    2: { cbn. unfold ret. by rewrite (IH _ _ old). }
    change (plist_get_string_val (plist_dict_get_item (Some app) "CFBundleName"))
      with (app_field app "CFBundleName").
    change (plist_get_string_val (plist_dict_get_item (Some app) "CFBundleIdentifier"))
      with (app_field app "CFBundleIdentifier").
    change (plist_get_string_val (plist_dict_get_item (Some app) "CFBundleVersion"))
      with (app_field app "CFBundleVersion").
    destruct (decide (app_complete app)) as [(Hn & Hb & Hv)|Hno].
    + unfold app_row_text.
      destruct Hn as [n Hn], Hb as [b Hb], Hv as [v Hv]. rewrite Hn, Hb, Hv. cbn -[fprintf apps_loop].
      rewrite (fprintf_existing _ _ _ _ old) by done.
      destruct (fwrite_ok E p) eqn:Hok.
      * rewrite (IH _ _ (old +:+ (n +:+ "," +:+ b +:+ "," +:+ v +:+ LF)))
          by (cbn; apply lookup_insert_eq).
        rewrite ?Hok. unfold set_files; cbn.
        by rewrite insert_insert_eq, append_assoc.
      * rewrite (IH _ _ old) by done. by rewrite ?Hok.
    + assert (match app_field app "CFBundleName", app_field app "CFBundleIdentifier",
                    app_field app "CFBundleVersion" with
              | Some n, Some b, Some v => fprintf E (Some p) (n +:+ "," +:+ b +:+ "," +:+ v +:+ LF)
              | _, _, _ => ret ()
              end = ret ()) as ->.
      { unfold app_complete in Hno.
        destruct (app_field app "CFBundleName"), (app_field app "CFBundleIdentifier"),
          (app_field app "CFBundleVersion"); try reflexivity.
        exfalso. apply Hno. eauto. }
      unfold ret. by rewrite (IH _ _ old).
Qed.

Lemma rows_between_array items done_ rest :
  items = done_ ++ rest →
  rows_between (length done_) (length rest) (PArray items) =
  map app_row_text (filter app_complete rest).
Proof.
  revert done_. induction rest as [|app rest IH]; intros done_ ->; [done|].
  cbn [length rows_between plist_array_get_item].
  rewrite list_lookup_middle by done.
  specialize (IH (done_ ++ [app])).
  rewrite length_app, Nat.add_1_r in IH. rewrite <- (assoc_L (++)) in IH.
  specialize (IH eq_refl). rewrite filter_cons.
  destruct (decide (app_complete app)); by rewrite IH.
Qed.

Lemma rows_of_listing listing :
  rows_between 0 (plist_array_get_size listing) listing =
  map app_row_text (filter app_complete (array_items listing)).
Proof.
  destruct listing as [| | |items|]; try reflexivity.
  exact (rows_between_array items [] items eq_refl).
Qed.

Lemma apps_spec w :
  sat (extract_installed_apps E w)
      (λ r w',
         extends w w' ∧ files_except "installed_apps.csv" w w' ∧
         calls w' = calls w ++ ["extract_installed_apps"] ∧
         (r = 0 →
          live w' (length (heap w)) (OService "com.apple.mobile.installation_proxy") ∧
          ∃ listing, instproxy_browse E = Some listing ∧
            (fwrite_ok E "installed_apps.csv" = true →
             files w' !! "installed_apps.csv" =
             Some ("App Name,Bundle ID,Version" +:+ LF +:+
                   concat_s (map app_row_text (filter app_complete (array_items listing)))))))
      never.
Proof.
  open_world w.
  unfold extract_installed_apps, lockdownd_start_service, instproxy_client_new, fopen_w, fclose.
  unfold_state. cbn.
  destruct (start_service_ok E _); cbn.
  2: { frame_goals. }
  heap_step.
  destruct (instproxy_client_new_ok E); cbn.
  2: { heap_step. frame_goals. }
  repeat heap_step.
  destruct (instproxy_browse E) as [listing|]; cbn.
  2: { repeat heap_step. frame_goals. }
  repeat heap_step.
  destruct (fopen_w_ok E _); cbn.
  2: { repeat heap_step. frame_goals. }
  rewrite (fprintf_existing _ _ _ _ EmptyString) by (cbn; apply lookup_insert_eq).
  destruct (fwrite_ok E "installed_apps.csv") eqn:Hok.
  - erewrite apps_loop_existing by (cbn; apply lookup_insert_eq).
    rewrite Hok. unfold set_files. cbn. repeat heap_step.
    rewrite !insert_insert_eq.
    frame_goals.
    + unfold live. cbn. by rewrite lookup_app_r, Nat.sub_diag.
    + exists listing. split; [done|]. intros _.
      rewrite lookup_insert_eq, rows_of_listing. reflexivity.
  - erewrite apps_loop_existing by (cbn; apply lookup_insert_eq).
    rewrite Hok. cbn. repeat heap_step.
    frame_goals.
    + unfold live. cbn. by rewrite lookup_app_r, Nat.sub_diag.
    + exists listing. split; [done|]. discriminate.
Qed.

(** On its success path the extractor leaves the descriptor of the
    installation-listing service allocated, in every state. *)
Lemma inventory_success_keeps_descriptor w w' :
  extract_installed_apps E w = Done 0 w' →
  live w' (length (heap w)) (OService "com.apple.mobile.installation_proxy").
Proof.
  intros H. pose proof (apps_spec w) as A. rewrite H in A.
  destruct A as (_ & _ & _ & A). by destruct (A eq_refl).
Qed.

End Inventory.

Section Sealer.
Context (E : Env).

Lemma fwrite_existing p text w old :
  files w !! p = Some old →
  fwrite E text (Some p) w =
  Done () (if fwrite_ok E p then set_files (<[p := old +:+ text]> (files w)) w else w).
Proof. exact (fprintf_existing E p text w old). Qed.

Lemma drop_s_length n s : String.length (drop_s n s) = (String.length s - n)%nat.
Proof.
  revert s. induction n as [|n IH]; intros [|c s]; cbn; done.
Qed.

Lemma encrypt_loop_existing fuel ctx unread p w old :
  (String.length unread < fuel)%nat →
  files w !! p = Some old →
  encrypt_loop E fuel ctx unread (Some p) w =
  Done (fst (encrypt_chunks E fuel ctx unread))
       (if fwrite_ok E p
        then set_files (<[p := old +:+ snd (encrypt_chunks E fuel ctx unread)]> (files w)) w
        else w).
Proof.
  revert ctx unread w old. induction fuel as [|fuel IH]; intros ctx unread w old Hfuel Hp; [lia|].
  cbn [encrypt_loop encrypt_chunks].
  destruct (String.length (take_s 1024 unread) =? 0)%nat eqn:Hlen.
  - cbn. rewrite append_nil_r, insert_id by done. rewrite set_files_same.
    by destruct (fwrite_ok E p).
  - unfold EVP_EncryptUpdate. cbn -[take_s drop_s fwrite]. unfold bind.
    rewrite (fwrite_existing _ _ _ old) by done.
    assert (String.length (drop_s 1024 unread) < fuel)%nat as Hless.
    { rewrite drop_s_length. destruct unread; [done|]. cbn in *. lia. }
    destruct (encrypt_chunks E fuel _ (drop_s 1024 unread)) as [ctx'' rest] eqn:Hrest.
    destruct (fwrite_ok E p) eqn:Hok.
    + erewrite IH; [|done|cbn; apply lookup_insert_eq].
      rewrite Hrest, ?Hok. unfold set_files; cbn.
      by rewrite insert_insert_eq, append_assoc.
    + erewrite IH; [|done|done]. by rewrite Hrest, ?Hok.
Qed.

Lemma encrypt_loop_null fuel ctx unread w :
  sat (encrypt_loop E fuel ctx unread None w) (λ _ w', w' = w) anyhow.
Proof.
  revert ctx unread. induction fuel as [|fuel IH]; intros ctx unread; [exact I|].
  cbn [encrypt_loop].
  destruct (String.length (take_s 1024 unread) =? 0)%nat; [reflexivity|].
  unfold EVP_EncryptUpdate. cbn -[take_s drop_s fwrite]. unfold bind, fwrite.
  destruct (String.length _ =? 0)%nat; [apply IH | exact I].
Qed.

Local Arguments encrypt_loop : simpl never.
Local Arguments encrypt_chunks : simpl never.

Lemma encrypt_file_frame i o w :
  sat (encrypt_file E i o w)
      (λ _ w', extends w w' ∧ heap w' = heap w ∧ files_except o w w' ∧
               calls w' = calls w ++ ["encrypt_file"] ∧ console w' = console w)
      anyhow.
Proof.
  destruct w as [d l a u h f c cs].
  unfold encrypt_file, fopen_r, fopen_w, fclose. unfold_state. cbn.
  destruct (fopen_r_ok E i), (f !! i) as [content|] eqn:Hi; cbn;
    destruct (fopen_w_ok E o); cbn;
    destruct (cipher_ctx_new_ok E); cbn; try exact I.
  - (* both streams open *)
    erewrite encrypt_loop_existing; [|lia|cbn; apply lookup_insert_eq].
    cbn.
    destruct (fwrite_ok E o) eqn:Hok; cbn.
    + erewrite fwrite_existing by (cbn; apply lookup_insert_eq).
      rewrite Hok. unfold set_files. cbn. frame_goals.
    + erewrite fwrite_existing by (cbn; apply lookup_insert_eq).
      rewrite Hok. cbn. frame_goals.
  - (* the output stream is null *)
    match goal with |- context [encrypt_loop E ?n ?ctx ?s None ?w] =>
      pose proof (encrypt_loop_null n ctx s w) as Hloop;
      destruct (encrypt_loop E n ctx s None w) as [ctx' w'|w'] end; [|exact I].
    cbn in Hloop. subst w'. unfold fwrite.
    destruct (String.length _ =? 0)%nat; cbn; exact I.
Qed.

Lemma encrypt_file_run i o w content :
  i ≠ o →
  files w !! i = Some content →
  fopen_r_ok E i = true →
  fopen_w_ok E o = true →
  cipher_ctx_new_ok E = true →
  encrypt_file E i o w =
  Done () (set_files (<[o := if fwrite_ok E o then sealed E content else EmptyString]> (files w))
             (set_calls (calls w ++ ["encrypt_file"]) w)).
Proof.
  intros Hio Hi Hr Hw Hctx. destruct w as [d l a u h f c cs]. cbn in Hi.
  unfold encrypt_file, fopen_r, fopen_w, fclose. unfold_state. cbn.
  rewrite Hr, Hi, Hw, Hctx. cbn.
  rewrite lookup_insert_ne, Hi by done. cbn.
  erewrite encrypt_loop_existing; [|lia|cbn; apply lookup_insert_eq].
  unfold sealed.
  destruct (encrypt_chunks E _ _ content) as [ctx body]. cbn.
  destruct (fwrite_ok E o) eqn:Hok; cbn.
  - erewrite fwrite_existing by (cbn; apply lookup_insert_eq).
    rewrite Hok. unfold set_files. cbn. by rewrite !insert_insert_eq.
  - erewrite fwrite_existing by (cbn; apply lookup_insert_eq).
    by rewrite Hok.
Qed.

End Sealer.

(** ** The query

    What holds of the statement's rows: they are the joined rows in
    descending date order, one per message when [handle.ROWID] is a key. *)

Section Query.

Lemma date_leb_total a b : date_leb a b = false → date_leb b a = true.
Proof.
  destruct a as [x|], b as [y|]; cbn; try done.
  intros H. apply Z.leb_gt in H. apply Z.leb_le. lia.
Qed.

Lemma insert_desc_perm r rows : insert_desc r rows ≡ₚ r :: rows.
Proof.
  induction rows as [|r' rows IH]; cbn; [done|].
  destruct (date_leb _ _); [done|]. rewrite IH. apply Permutation_swap.
Qed.

Lemma order_by_date_desc_perm rows : order_by_date_desc rows ≡ₚ rows.
Proof.
  induction rows as [|r rows IH]; cbn; [done|].
  by rewrite insert_desc_perm, IH.
Qed.

Lemma insert_desc_sorted r rows :
  Sorted date_desc rows → Sorted date_desc (insert_desc r rows).
Proof.
  induction 1 as [|r' rows Hrows IH Hhd]; cbn.
  - by repeat constructor.
  - destruct (date_leb (m_date r'.1) (m_date r.1)) eqn:Hle.
    + constructor; [by constructor|]. by constructor.
    + constructor; [done|].
      destruct rows as [|r'' rows]; cbn in *.
      * constructor. by apply date_leb_total.
      * destruct (date_leb (m_date r''.1) (m_date r.1)).
        -- constructor. by apply date_leb_total.
        -- constructor. by inversion Hhd.
Qed.

Lemma order_by_date_desc_sorted rows : Sorted date_desc (order_by_date_desc rows).
Proof.
  induction rows as [|r rows IH]; cbn; [constructor|]. by apply insert_desc_sorted.
Qed.

Lemma join_matches_absent m hs k :
  m_handle_id m = Some k → k ∉ map h_ROWID hs → join_matches m hs = [].
Proof.
  intros Hm. unfold join_matches. induction hs as [|h hs IH]; [done|].
  intros Hnot. cbn in Hnot. apply not_elem_of_cons in Hnot as [Hh Hhs].
  rewrite filter_cons_False; [by apply IH|].
  rewrite Hm. by intros [= ->].
Qed.

Lemma join_matches_unique m hs :
  NoDup (map h_ROWID hs) → (length (join_matches m hs) ≤ 1)%nat.
Proof.
  induction hs as [|h hs IH]; [cbn; lia|].
  intros Hkeys. cbn in Hkeys. apply NoDup_cons in Hkeys as [Hh Hhs].
  unfold join_matches in *. rewrite filter_cons.
  destruct (decide (m_handle_id m = Some (h_ROWID h))) as [Hm|]; [|by apply IH].
  fold (join_matches m hs). by rewrite (join_matches_absent m hs (h_ROWID h)).
Qed.

(** With [handle.ROWID] unique, the left join pairs every message with
    one row: the messages of the join are the messages of the table. *)
Lemma left_join_one_per_message ms hs :
  NoDup (map h_ROWID hs) → map fst (left_join ms hs) = ms.
Proof.
  intros Hkeys. unfold left_join. induction ms as [|m ms IH]; cbn; [done|].
  rewrite map_app, IH. unfold left_join_one.
  pose proof (join_matches_unique m hs Hkeys) as Hlen.
  destruct (join_matches m hs) as [|h [|h' found]]; cbn in *; [done|done|lia].
Qed.

(** A message whose sender is not in [handle] is in the join, with no
    handle row. *)
Lemma left_join_keeps_unmatched m ms hs :
  m ∈ ms → join_matches m hs = [] → (m, None) ∈ left_join ms hs.
Proof.
  intros Hin Hnone. unfold left_join.
  induction Hin as [m ms|m m' ms Hin IH];
    change (concat (map (left_join_one hs) (?x :: ms)))
      with (left_join_one hs x ++ concat (map (left_join_one hs) ms));
    apply elem_of_app.
  - left. unfold left_join_one. rewrite Hnone. apply elem_of_cons; by left.
  - right. by apply IH.
Qed.

Lemma run_query_row_count E db :
  NoDup (map h_ROWID (handle db)) →
  length (run_query E db) = length (message db).
Proof.
  intros Hkeys. unfold run_query.
  rewrite length_map, (Permutation_length (order_by_date_desc_perm _)).
  by rewrite <- (length_map fst), left_join_one_per_message.
Qed.

End Query.

Local Arguments encrypt_file : simpl never.

Section Messages.
Context (E : Env).

Lemma write_rows_existing rows p w old :
  files w !! p = Some old →
  write_rows E rows (Some p) w =
  Done () (if fwrite_ok E p
           then set_files (<[p := old +:+ concat_s (map row_text rows)]> (files w)) w
           else w).
Proof.
  revert w old. induction rows as [|[[c0 c1] c2] rows IH]; intros w old Hp; cbn [write_rows].
  - cbn. rewrite append_nil_r, insert_id by done. rewrite set_files_same.
    by destruct (fwrite_ok E p).
  - unfold bind. rewrite (fprintf_existing _ _ _ _ old) by done.
    destruct (fwrite_ok E p) eqn:Hok.
    + erewrite IH by (cbn; apply lookup_insert_eq).
      rewrite ?Hok. unfold set_files; cbn.
      by rewrite insert_insert_eq, append_assoc.
    + erewrite IH by done. by rewrite ?Hok.
Qed.

(** C6. A message whose sender is not in [handle] has a row in the
    result of the statement, with NULL in the sender column, and
    [write_rows] writes that row with the six characters [(null)] in the
    sender field - not with an empty field, and likewise for a NULL date
    or body: the columns go to [fprintf] unchecked. *)
Theorem unknown_sender_is_written_as_null_marker db m p w old :
  m ∈ message db →
  join_matches m (handle db) = [] →
  files w !! p = Some old →
  fwrite_ok E p = true →
  select_columns E (m, None) ∈ run_query E db ∧
  files (final_world (write_rows E [select_columns E (m, None)] (Some p) w)) !! p =
  Some (old +:+ (fmt_s (m_date m ≫= sqlite3_datetime E) +:+ "," +:+ "(null)" +:+ "," +:+
                 fmt_s (m_text m) +:+ LF)).
Proof.
  intros Hm Hnone Hp Hok. split.
  - unfold run_query. apply list_elem_of_fmap_2' with (x := (m, None)); [|done].
    rewrite order_by_date_desc_perm. by apply left_join_keeps_unmatched.
  - rewrite (write_rows_existing _ _ _ old) by done. rewrite Hok. cbn.
    rewrite lookup_insert_eq. unfold row_text, concat_s. cbn.
    by rewrite append_nil_r.
Qed.

Lemma sms_spec output_file w :
  sat (extract_sms_messages E output_file w)
      (λ r w',
         extends w w' ∧
         ((r = -1 ∧ calls w' = calls w ++ ["extract_sms_messages"]) ∨
          (r = 0 ∧
           calls w' = calls w ++ ["extract_sms_messages"; "encrypt_file"] ∧
           files w' !! output_file = None ∧
           ∃ bytes, remote_file E remote_store = Some bytes ∧
             (local_copy w ≠ output_file → local_copy w ≠ sealed_name output_file →
              files w' !! local_copy w = Some bytes))))
      anyhow.
Proof.
  destruct w as [d l a u h f c cs].
  unfold extract_sms_messages, local_copy, sealed_name, remote_store.
  unfold bind at 1. unfold enter, modify at 1. unfold set_calls. cbn.
  unfold bind at 1.
  set (id := udid_string (mkWorld d l a u h f c cs)).
  set (W := mkWorld d l a u h f c (cs ++ ["extract_sms_messages"])).
  assert ((let* p := gets udid in read_cstr p) W = Done id W ∨
          (let* p := gets udid in read_cstr p) W = Fault W) as [-> | ->].
  { unfold id, udid_string, bind, gets, read_cstr. cbn.
    destruct u as [ua|]; [|by left].
    destruct (h !! ua) as [[[]|]|]; auto. }
  2: exact I.
  clearbody id. subst W.
  match goal with |- sat _ ?Q _ => set (post := Q) end.
  rewrite <- (app_nil_r h). subst post.
  set (local := snprintf MAX_FILENAME_LEN (fmt_s id +:+ "_sms.db")).
  unfold copy_file, sqlite3_open, sqlite3_prepare_v2, fopen_w, fclose, remove.
  unfold_state. cbn.
  destruct (remote_file E _) as [bytes|]; cbn.
  2: { split; [frame_goals | left; frame_goals]. }
  destruct (fopen_w_ok E local); cbn.
  2: { split; [frame_goals | left; frame_goals]. }
  destruct (fwrite_ok E local) eqn:Hlocal; cbn.
  2: { split; [frame_goals | left; frame_goals]. }
  erewrite fwrite_existing by (cbn; apply lookup_insert_eq).
  rewrite Hlocal. unfold set_files. cbn. rewrite insert_insert_eq.
  heap_step.
  destruct (sqlite3_open_ok E); cbn.
  2: { split; [frame_goals | left; frame_goals]. }
  destruct (fopen_w_ok E output_file); cbn.
  2: { heap_step. split; [frame_goals | left; frame_goals]. }
  destruct (_ ≫= sqlite3_decode E) as [db|]; cbn.
  2: { heap_step. split; [frame_goals | left; frame_goals]. }
  heap_step.
  destruct (fwrite_ok E output_file) eqn:Hout.
  all: erewrite fprintf_existing by (cbn; apply lookup_insert_eq).
  all: rewrite Hout.
  all: erewrite write_rows_existing by (cbn; apply lookup_insert_eq).
  all: rewrite Hout; unfold set_files; cbn; repeat heap_step.
  all: match goal with |- context [encrypt_file E ?i ?o ?w] =>
         pose proof (encrypt_file_frame E i o w) as Henc;
         destruct (encrypt_file E i o w) as [[] w'|w'] end; [|exact I].
  all: cbn in Henc; destruct Henc as ([Hd Hl Ha Hu _] & Hheap & Hfiles & Hcalls & _).
  all: cbn in *.
  all: split; [split; cbn; eauto|right].
  all: split; [done|]; split; [by rewrite Hcalls, <- (assoc_L (++))|].
  all: split; [apply lookup_delete_eq|]; exists bytes; split; [done|].
  all: intros Hne1 Hne2; rewrite lookup_delete_ne by congruence.
  all: rewrite Hfiles by done; cbn.
  all: rewrite !lookup_insert_ne by congruence; apply lookup_insert_eq.
Qed.

End Messages.

Section Report.
Context (E : Env).

Lemma read_udid w :
  (let* p := gets udid in read_cstr p) w = Done (udid_string w) w ∨
  (let* p := gets udid in read_cstr p) w = Fault w ∧ ¬ udid_ok w.
Proof.
  unfold udid_string, udid_ok, live, bind, gets, read_cstr.
  destruct (udid w) as [a|]; [|by left].
  destruct (heap w !! a) as [[[]|]|]; auto; right; (split; [done|]); intros [s Hs]; discriminate.
Qed.

Lemma report_spec output_file w :
  sat (generate_report E output_file w)
      (λ _ w',
         extends w w' ∧ heap w' = heap w ∧ files_except output_file w w' ∧
         calls w' = calls w ++ ["generate_report"] ∧
         (fopen_w_ok E output_file = true → fwrite_ok E output_file = true →
          files w' !! output_file = Some (manifest E (udid_string w))))
      (λ _, ¬ udid_ok w).
Proof.
  destruct w as [d l a u h f c cs].
  unfold generate_report, fopen_w, fclose. unfold_state.
  cbn -[udid_string].
  destruct (fopen_w_ok E output_file); cbn -[udid_string].
  2: { frame_goals. }
  destruct (fwrite_ok E output_file) eqn:Hok.
  all: do 3 (erewrite fprintf_existing by (cbn; apply lookup_insert_eq);
             rewrite Hok; unfold set_files; cbn -[udid_string]).
  all: match goal with |- context [match ?u with Some _ => _ | None => Done None ?W end] =>
         change (match u with Some a0 => _ | None => Done None W end)
           with ((let* p := gets udid in read_cstr p) W);
         destruct (read_udid W) as [-> | [-> Hbad]] end.
  2,4: exact Hbad.
  all: do 4 (erewrite fprintf_existing by (cbn; apply lookup_insert_eq);
             rewrite Hok; unfold set_files; cbn -[udid_string]).
  all: unfold modify; cbn -[udid_string]; rewrite ?insert_insert_eq.
  all: frame_goals.
  intros _ _. rewrite lookup_insert_eq. f_equal.
  unfold manifest, concat_s, udid_string. cbn.
  rewrite !append_assoc, append_nil_r. reflexivity.
Qed.

End Report.

Section Session.
Context (E : Env).

Lemma session_open_extends w w' :
  session_open w → extends w w' → session_open w'.
Proof.
  intros (d & l & a & Hd & Hl & Ha & Ld & Ll & La & Hu) [Ed El Ea Eu [more Eh]].
  unfold session_open, udid_ok, live in *.
  exists d, l, a. rewrite Ed, El, Ea, Eu, Eh.
  repeat split; try done; try by apply lookup_app_l_Some.
  destruct (udid w) as [p|]; [|done].
  destruct Hu as [s Hs]. exists s. by apply lookup_app_l_Some.
Qed.

Lemma udid_string_extends w w' :
  udid_ok w → extends w w' → udid_string w' = udid_string w.
Proof.
  intros Hu [_ _ _ Eu [more Eh]]. unfold udid_string, udid_ok, live in *.
  rewrite Eu, Eh. destruct (udid w) as [p|]; [|done].
  destruct Hu as [s Hs]. by rewrite (lookup_app_l_Some _ _ _ _ Hs), Hs.
Qed.

Lemma connect_spec w :
  sat (connect_to_device E w)
      (λ r w',
         files w' = files w ∧
         calls w' = calls w ++ ["connect_to_device"] ∧
         (r = 0 → udid w = None →
          session_open w' ∧ udid_string w' = device_udid E))
      never.
Proof.
  open_world w.
  unfold connect_to_device, idevice_new, lockdownd_client_new_with_handshake,
    lockdownd_get_device_udid, lockdownd_start_service, afc_client_new.
  unfold_state. cbn.
  destruct (idevice_new_ok E); cbn.
  2: { frame_goals. }
  heap_step.
  destruct (handshake_ok E); cbn.
  2: { heap_step. frame_goals. }
  heap_step.
  destruct (device_udid E) as [s|]; cbn; repeat heap_step.
  all: destruct (start_service_ok E _); cbn; repeat heap_step; [|frame_goals].
  all: destruct (afc_client_new_ok E); cbn; repeat heap_step; [|frame_goals].
  all: (split; [done|]); (split; [done|]).
  all: intros _ ->; unfold session_open, udid_string, udid_ok, live; cbn.
  all: rewrite ?lookup_past; cbn.
  all: (split; [|done]); eexists _, _, _.
  all: repeat (split; [reflexivity|]); rewrite ?lookup_past; cbn; eauto.
Qed.

Lemma print_connected_frame w :
  sat (print_connected w)
      (λ _ w', extends w w' ∧ heap w' = heap w ∧ files w' = files w ∧ calls w' = calls w)
      (λ _, ¬ udid_ok w).
Proof.
  unfold print_connected. unfold bind at 1.
  destruct (read_udid w) as [-> | [-> Hbad]]; [|exact Hbad].
  destruct w. unfold_state. cbn. frame_goals.
Qed.

Lemma disconnect_spec w :
  session_open w →
  sat (disconnect_from_device w)
      (λ _ w',
         session_closed w' ∧ files w' = files w ∧ console w' = console w ∧
         calls w' = calls w ++ ["disconnect_from_device"] ∧
         ∀ i, Some i ≠ afc w → Some i ≠ lockdown w → Some i ≠ device w →
              Some i ≠ udid w → heap w' !! i = heap w !! i)
      never.
Proof.
  intros (pd & pl & pa & Hd & Hl & Ha & Ld & Ll & La & Hu).
  destruct w as [d l a u h f c cs]. unfold udid_ok, live in *. cbn in *. subst d l a.
  assert (pa ≠ pl ∧ pa ≠ pd ∧ pl ≠ pd) as (Hal & Had & Hld) by (repeat split; congruence).
  unfold disconnect_from_device, release. unfold_state. cbn.
  rewrite La. cbn.
  rewrite list_lookup_insert_ne by done. rewrite Ll. cbn.
  rewrite !list_lookup_insert_ne by done. rewrite Ld. cbn.
  assert (pa < length h ∧ pl < length h ∧ pd < length h)%nat as (Ba & Bl & Bd)
    by (repeat split; eapply lookup_lt_Some; eassumption).
  destruct u as [pu|]; cbn.
  - destruct Hu as [s Hs].
    assert (pa ≠ pu ∧ pl ≠ pu ∧ pd ≠ pu) as (Hau & Hlu & Hdu) by (repeat split; congruence).
    rewrite !list_lookup_insert_ne by done. rewrite Hs. cbn.
    unfold session_closed, released_ptr, released. cbn.
    repeat split; eauto.
    + rewrite !list_lookup_insert_ne by done. apply list_lookup_insert_eq. by rewrite ?length_insert.
    + rewrite !list_lookup_insert_ne by done. apply list_lookup_insert_eq. by rewrite ?length_insert.
    + rewrite !list_lookup_insert_ne by done. apply list_lookup_insert_eq. by rewrite ?length_insert.
    + apply list_lookup_insert_eq. rewrite !length_insert. by eapply lookup_lt_Some.
    + intros i Hia Hil Hid Hiu. by rewrite !list_lookup_insert_ne by congruence.
  - unfold session_closed, released_ptr, released. cbn.
    repeat split; eauto.
    + rewrite !list_lookup_insert_ne by done. apply list_lookup_insert_eq. by rewrite ?length_insert.
    + rewrite !list_lookup_insert_ne by done. apply list_lookup_insert_eq. by rewrite ?length_insert.
    + apply list_lookup_insert_eq. by rewrite ?length_insert.
    + intros i Hia Hil Hid _. by rewrite !list_lookup_insert_ne by congruence.
Qed.

(** C1. When discovery, handshake and the AFC service start succeed and
    the AFC client cannot be created, [connect_to_device] returns -1 with
    the AFC service descriptor still allocated, and with the identifier
    string still allocated when one was retrieved: the failed open leaks
    both. *)
Theorem connect_failure_leaks_descriptor_and_udid w :
  idevice_new_ok E = true →
  handshake_ok E = true →
  start_service_ok E "com.apple.afc" = true →
  afc_client_new_ok E = false →
  ∃ w' sd,
    connect_to_device E w = Done (-1) w' ∧
    live w' sd (OService "com.apple.afc") ∧
    ∀ s, device_udid E = Some s → ∃ a, udid w' = Some a ∧ live w' a (OCString s).
Proof.
  intros Hdev Hhs Hsvc Hafc.
  destruct w as [d l a u h f c cs]. rewrite <- (app_nil_r h).
  unfold connect_to_device, idevice_new, lockdownd_client_new_with_handshake,
    lockdownd_get_device_udid, lockdownd_start_service, afc_client_new, live.
  rewrite Hdev, Hhs, Hsvc, Hafc. unfold_state. cbn.
  repeat heap_step.
  destruct (device_udid E) as [s|]; cbn; repeat heap_step.
  - eexists _, (length h + 3)%nat. split; [reflexivity|]. cbn.
    split; [by rewrite lookup_past|].
    intros s' [= <-]. exists (length h + 2)%nat. split; [done|]. by rewrite lookup_past.
  - eexists _, (length h + 2)%nat. split; [reflexivity|]. cbn.
    split; [by rewrite lookup_past|]. intros s' [=].
Qed.

(** C8. On an open session a first [disconnect_from_device] returns,
    leaving the released addresses in the globals, and a second one
    faults: it releases the AFC client again. *)
Theorem disconnect_twice_releases_twice w :
  session_open w →
  ∃ w1 w2 a,
    disconnect_from_device w = Done () w1 ∧
    afc w1 = Some a ∧ released w1 a ∧
    disconnect_from_device w1 = Fault w2.
Proof.
  intros Hopen.
  pose proof (disconnect_spec w Hopen) as D.
  destruct (disconnect_from_device w) as [[] w1|] eqn:H1; [|done].
  destruct D as ((_ & _ & [a Ha] & Hrel & _) & _).
  rewrite Ha in Hrel. cbn in Hrel. unfold released in Hrel.
  eexists w1, _, a. split; [done|]. split; [done|]. split; [done|].
  unfold disconnect_from_device, release. unfold_state. cbn.
  rewrite Ha, Hrel. reflexivity.
Qed.

(** A session left half open by a failed handshake: the device handle
    was released by [connect_to_device], the global still holds its
    address, and closing that session releases it again. *)
Lemma disconnect_after_failed_handshake w :
  idevice_new_ok E = true →
  handshake_ok E = false →
  afc w = None → lockdown w = None →
  ∃ w1 w2,
    connect_to_device E w = Done (-1) w1 ∧
    disconnect_from_device w1 = Fault w2.
Proof.
  intros Hdev Hhs Hafc Hlock.
  destruct w as [d l a u h f c cs]. cbn in Hafc, Hlock. subst a l.
  rewrite <- (app_nil_r h).
  unfold connect_to_device, idevice_new, lockdownd_client_new_with_handshake.
  rewrite Hdev, Hhs. unfold_state. cbn. repeat heap_step.
  eexists _, _. split; [reflexivity|].
  unfold disconnect_from_device. unfold_state. cbn. repeat heap_step. reflexivity.
Qed.

End Session.

(** ** File names *)

Section Names.

Lemma append_length s t : String.length (s +:+ t) = (String.length s + String.length t)%nat.
Proof.
  induction s as [|c s IH]; [reflexivity|].
  change (S (String.length (s +:+ t)) = S (String.length s + String.length t)). by rewrite IH.
Qed.

Lemma drop_s_append s t : drop_s (String.length s) (s +:+ t) = t.
Proof. induction s as [|c s IH]; [by destruct t|exact IH]. Qed.

Lemma take_s_short n s t :
  take_s n s = t → (String.length t < n)%nat → s = t.
Proof.
  revert s t. induction n as [|n IH]; intros s t Ht Hlen; [lia|].
  destruct s as [|c s]; [done|]. cbn in Ht. subst t. cbn in Hlen.
  f_equal. apply IH; [done|lia].
Qed.

(** A name that is shorter than the buffer and does not end in
    [_sms.db] is not the name of the local copy, whatever the device
    identifier. *)
Lemma local_copy_name_differs id name :
  (String.length name < MAX_FILENAME_LEN - 1)%nat →
  drop_s (String.length name - 7) name ≠ "_sms.db" →
  snprintf MAX_FILENAME_LEN (id +:+ "_sms.db") ≠ name.
Proof.
  intros Hshort Hend Heq. unfold snprintf in Heq.
  apply take_s_short in Heq; [|done]. apply Hend. subst name.
  rewrite append_length. cbn [String.length].
  replace (String.length id + 7 - 7)%nat with (String.length id) by lia.
  apply drop_s_append.
Qed.

Lemma local_copy_fresh w name :
  name ∈ ["sms_messages.csv"; sealed_name "sms_messages.csv";
          "installed_apps.csv"; "forensic_report.txt"] →
  local_copy w ≠ name.
Proof.
  intros Hin. unfold local_copy. apply local_copy_name_differs.
  - repeat (apply elem_of_cons in Hin as [-> | Hin]); [vm_compute; lia..|].
    by apply elem_of_nil in Hin.
  - repeat (apply elem_of_cons in Hin as [-> | Hin]); [by vm_compute..|].
    by apply elem_of_nil in Hin.
Qed.

End Names.

(** ** The pipeline *)

Local Arguments extract_sms_messages : simpl never.
Local Arguments extract_installed_apps : simpl never.
Local Arguments generate_report : simpl never.
Local Arguments disconnect_from_device : simpl never.
Local Arguments connect_to_device : simpl never.
Local Arguments print_connected : simpl never.

Section Pipeline.
Context (E : Env).

(** What is known once the session is open and greeted. *)
Lemma session_after_connect disk w1 w1' :
  connect_to_device E (init_world disk) = Done 0 w1 →
  print_connected w1 = Done () w1' →
  session_open w1' ∧ udid_string w1' = device_udid E ∧
  files w1' = disk ∧ calls w1' = ["connect_to_device"].
Proof.
  intros H1 H2.
  pose proof (connect_spec E (init_world disk)) as C. rewrite H1 in C.
  destruct C as (Cf & Cc & Cs). destruct (Cs eq_refl eq_refl) as [So Su].
  pose proof (print_connected_frame w1) as P. rewrite H2 in P.
  destruct P as (Pe & Ph & Pf & Pc).
  assert (udid_ok w1) as Uok by (by destruct So as (? & ? & ? & ? & ? & ? & ? & ? & ? & ?)).
  repeat split.
  - by eapply session_open_extends.
  - by rewrite (udid_string_extends w1 w1').
  - by rewrite Pf, Cf.
  - by rewrite Pc, Cc.
Qed.

(** From any state with an open session, the inventory extractor, the
    report synthesizer and the close all return. *)
Lemma pipeline_tail w2 :
  session_open w2 →
  ∃ r w3 w4 w5,
    extract_installed_apps E w2 = Done r w3 ∧
    generate_report E "forensic_report.txt" w3 = Done () w4 ∧
    disconnect_from_device w4 = Done () w5 ∧
    extends w2 w3 ∧ files_except "installed_apps.csv" w2 w3 ∧
    files_except "forensic_report.txt" w3 w4 ∧
    (fopen_w_ok E "forensic_report.txt" = true → fwrite_ok E "forensic_report.txt" = true →
     files w4 !! "forensic_report.txt" = Some (manifest E (udid_string w3))) ∧
    files w5 = files w4 ∧
    calls w5 = calls w2 ++ ["extract_installed_apps"; "generate_report";
                            "disconnect_from_device"] ∧
    session_closed w5 ∧
    (∀ o, live w3 (length (heap w2)) o → live w5 (length (heap w2)) o).
Proof.
  intros S2.
  pose proof (apps_spec E w2) as A.
  destruct (extract_installed_apps E w2) as [r w3|]; [|done].
  destruct A as (Ae & Af & Ac & _).
  assert (session_open w3) as S3 by (by eapply session_open_extends).
  pose proof (report_spec E "forensic_report.txt" w3) as R.
  destruct (generate_report E "forensic_report.txt" w3) as [[] w4|] eqn:H5.
  2: { exfalso. apply R. by destruct S3 as (? & ? & ? & ? & ? & ? & ? & ? & ? & ?). }
  destruct R as (Re & Rh & Rf & Rc & Rm).
  assert (session_open w4) as S4 by (by eapply session_open_extends).
  pose proof (disconnect_spec w4 S4) as D.
  destruct (disconnect_from_device w4) as [[] w5|] eqn:H6; [|done].
  destruct D as (Dc & Df & _ & Dcalls & Dheap).
  exists r, w3, w4, w5.
  split; [done|]. split; [done|]. split; [done|]. split; [exact Ae|].
  split; [exact Af|]. split; [exact Rf|]. split; [exact Rm|]. split; [exact Df|].
  split; [by rewrite Dcalls, Rc, Ac, <- !(assoc_L (++))|]. split; [exact Dc|].
  intros o. unfold live. rewrite <- Rh. intros Hlive. rewrite Dheap; [done|..].
  all: destruct S2 as (d & l & a & Hd & Hl & Ha & Ld & Ll & La & Hu).
  all: destruct Re as [Rd Rl Ra Ru _], Ae as [Ad Al Aa Au _].
  all: unfold udid_ok, live in *.
  - rewrite Ra, Aa, Ha. intros [= <-]. apply lookup_lt_Some in La. lia.
  - rewrite Rl, Al, Hl. intros [= <-]. apply lookup_lt_Some in Ll. lia.
  - rewrite Rd, Ad, Hd. intros [= <-]. apply lookup_lt_Some in Ld. lia.
  - rewrite Ru, Au. destruct (udid w2) as [u|]; [|done].
    intros [= <-]. destruct Hu as [s Hs]. apply lookup_lt_Some in Hs. lia.
Qed.

Lemma main_unfold disk w1 w1' r2 w2 r3 w3 w4 w5 :
  connect_to_device E (init_world disk) = Done 0 w1 →
  print_connected w1 = Done () w1' →
  extract_sms_messages E "sms_messages.csv" w1' = Done r2 w2 →
  extract_installed_apps E w2 = Done r3 w3 →
  generate_report E "forensic_report.txt" w3 = Done () w4 →
  disconnect_from_device w4 = Done () w5 →
  main E (init_world disk) =
  Done 0 (set_console (console w5 ++ ["Disconnected from iOS device." +:+ LF]) w5).
Proof.
  intros H1 H2 H3 H4 H5 H6. unfold main, bind.
  rewrite H1. cbv beta iota. change (negb (0 =? 0)) with false. cbv beta iota.
  rewrite H2. cbv beta iota. rewrite H3. cbv beta iota. rewrite H4. cbv beta iota.
  rewrite H5. cbv beta iota. by rewrite H6.
Qed.

(** X30. In every run in which the session opens and the message
    extractor returns its failure code, the inventory extractor, the
    report synthesizer and the session close are still entered, in that
    order, and all return; [main] returns 0 with the session's handles
    released. *)
Theorem extractor_failure_does_not_abort disk w1 w1' w2 :
  connect_to_device E (init_world disk) = Done 0 w1 →
  print_connected w1 = Done () w1' →
  extract_sms_messages E "sms_messages.csv" w1' = Done (-1) w2 →
  ∃ r w3 w4 w5 w,
    extract_installed_apps E w2 = Done r w3 ∧
    generate_report E "forensic_report.txt" w3 = Done () w4 ∧
    disconnect_from_device w4 = Done () w5 ∧
    main E (init_world disk) = Done 0 w ∧
    calls w = ["connect_to_device"; "extract_sms_messages"; "extract_installed_apps";
               "generate_report"; "disconnect_from_device"] ∧
    session_closed w.
Proof.
  intros H1 H2 H3.
  destruct (session_after_connect disk w1 w1' H1 H2) as (S1 & _ & _ & C1).
  pose proof (sms_spec E "sms_messages.csv" w1') as M. rewrite H3 in M.
  destruct M as (Me & [[_ Mc] | [Hr _]]); [|discriminate].
  assert (session_open w2) as S2 by (by eapply session_open_extends).
  destruct (pipeline_tail w2 S2) as (r & w3 & w4 & w5 & H4 & H5 & H6 & _ & _ & _ & _ & _ & Hc & Hs & _).
  exists r, w3, w4, w5,
    (set_console (console w5 ++ ["Disconnected from iOS device." +:+ LF]) w5).
  split; [done|]. split; [done|]. split; [done|].
  split; [by eapply main_unfold|].
  split; [|by destruct w5].
  cbn. by rewrite Hc, Mc, C1.
Qed.


(** C2. In every run in which the session opens and the inventory
    extractor succeeds, [main] returns 0 with the session closed, and the
    descriptor of the installation-listing service that the extractor
    opened is still allocated: nothing releases it. *)
Theorem inventory_descriptor_outlives_session disk w1 w1' r2 w2 w3 :
  connect_to_device E (init_world disk) = Done 0 w1 →
  print_connected w1 = Done () w1' →
  extract_sms_messages E "sms_messages.csv" w1' = Done r2 w2 →
  extract_installed_apps E w2 = Done 0 w3 →
  ∃ w,
    main E (init_world disk) = Done 0 w ∧
    session_closed w ∧
    live w (length (heap w2)) (OService "com.apple.mobile.installation_proxy").
Proof.
  intros H1 H2 H3 H4.
  destruct (session_after_connect disk w1 w1' H1 H2) as (S1 & _ & _ & _).
  pose proof (sms_spec E "sms_messages.csv" w1') as M. rewrite H3 in M.
  destruct M as (Me & _).
  assert (session_open w2) as S2 by (by eapply session_open_extends).
  destruct (pipeline_tail w2 S2)
    as (r & w3' & w4 & w5 & H4' & H5 & H6 & _ & _ & _ & _ & _ & _ & Hs & Hkeep).
  rewrite H4 in H4'. injection H4' as <- <-.
  exists (set_console (console w5 ++ ["Disconnected from iOS device." +:+ LF]) w5).
  split; [by eapply main_unfold|]. split; [by destruct w5|].
  apply (inventory_success_keeps_descriptor E) in H4. apply Hkeep in H4.
  by destruct w5.
Qed.

(** C9. In every run in which the session opens and the message
    extractor succeeds, the fetched copy of the message store, named
    after the device identifier, is on the local disk with the fetched
    bytes when the extractor returns (the plaintext table being gone)
    and still when [main] returns. *)
Theorem raw_copy_outlives_the_run disk w1 w1' w2 :
  connect_to_device E (init_world disk) = Done 0 w1 →
  print_connected w1 = Done () w1' →
  extract_sms_messages E "sms_messages.csv" w1' = Done 0 w2 →
  ∃ bytes w,
    local_copy w1' = snprintf MAX_FILENAME_LEN (fmt_s (device_udid E) +:+ "_sms.db") ∧
    remote_file E remote_store = Some bytes ∧
    files w2 !! "sms_messages.csv" = None ∧
    files w2 !! local_copy w1' = Some bytes ∧
    main E (init_world disk) = Done 0 w ∧
    files w !! local_copy w1' = Some bytes.
Proof.
  intros H1 H2 H3.
  destruct (session_after_connect disk w1 w1' H1 H2) as (S1 & U1 & _ & _).
  pose proof (sms_spec E "sms_messages.csv" w1') as M. rewrite H3 in M.
  destruct M as (Me & [[Hr _] | (_ & _ & Mgone & bytes & Mremote & Mcopy)]); [discriminate|].
  assert (session_open w2) as S2 by (by eapply session_open_extends).
  destruct (pipeline_tail w2 S2)
    as (r & w3 & w4 & w5 & H4 & H5 & H6 & _ & Fa & Fr & _ & Fd & _ & _ & _).
  assert (∀ name, name ∈ ["sms_messages.csv"; sealed_name "sms_messages.csv";
                          "installed_apps.csv"; "forensic_report.txt"] →
                  local_copy w1' ≠ name) as Hfresh
    by (intros name; apply local_copy_fresh).
  assert (files w2 !! local_copy w1' = Some bytes) as Hcopy.
  { apply Mcopy; apply Hfresh; set_solver. }
  exists bytes, (set_console (console w5 ++ ["Disconnected from iOS device." +:+ LF]) w5).
  split; [by unfold local_copy; rewrite U1|].
  split; [done|]. split; [done|]. split; [done|].
  split; [by eapply main_unfold|].
  cbn. rewrite Fd, Fr, Fa; [done| |]; apply Hfresh; set_solver.
Qed.

(** C5, as the code has it.  In every run of [main] that returns 0 and
    in which the report file can be opened and written, the report is
    the fixed manifest: title, time, device identifier and the same two
    artifact lines, whatever the two extractors returned. *)
Theorem report_lists_both_artifacts_regardless disk w :
  main E (init_world disk) = Done 0 w →
  fopen_w_ok E "forensic_report.txt" = true →
  fwrite_ok E "forensic_report.txt" = true →
  files w !! "forensic_report.txt" = Some (manifest E (device_udid E)).
Proof.
  intros Hmain Hopen Hwrite.
  unfold main in Hmain. unfold bind at 1 in Hmain.
  destruct (connect_to_device E (init_world disk)) as [rc w1|] eqn:H1; [|discriminate].
  destruct (Z.eqb_spec rc 0) as [-> | Hrc]; cbn [negb] in Hmain; [|discriminate].
  unfold bind at 1 in Hmain.
  destruct (print_connected w1) as [[] w1'|] eqn:H2; [|discriminate].
  unfold bind at 1 in Hmain.
  destruct (extract_sms_messages E "sms_messages.csv" w1') as [r2 w2|] eqn:H3; [|discriminate].
  destruct (session_after_connect disk w1 w1' H1 H2) as (S1 & U1 & _ & _).
  pose proof (sms_spec E "sms_messages.csv" w1') as M. rewrite H3 in M.
  destruct M as (Me & _).
  assert (session_open w2) as S2 by (by eapply session_open_extends).
  destruct (pipeline_tail w2 S2)
    as (r & w3 & w4 & w5 & H4 & H5 & H6 & Ae & _ & _ & Rm & Fd & _ & _ & _).
  unfold bind in Hmain. rewrite H4, H5, H6 in Hmain. cbn in Hmain.
  injection Hmain as <-. cbn. rewrite Fd, Rm by done.
  assert (udid_ok w1') as U by (by destruct S1 as (? & ? & ? & ? & ? & ? & ? & ? & ? & ?)).
  assert (udid_ok w2) as U2
    by (by destruct S2 as (? & ? & ? & ? & ? & ? & ? & ? & ? & ?)).
  by rewrite (udid_string_extends w2 w3), (udid_string_extends w1' w2), U1.
Qed.

(** C4, as the code has it.  Whenever the message extractor returns 0,
    the plaintext table is gone: [remove] follows [encrypt_file]
    whatever became of the sealing. *)
Theorem plaintext_removed_whenever_seal_returns output_file w w' :
  extract_sms_messages E output_file w = Done 0 w' →
  files w' !! output_file = None.
Proof.
  intros H. pose proof (sms_spec E output_file w) as M. rewrite H in M.
  by destruct M as (_ & [[Hr _] | (_ & _ & Mgone & _)]).
Qed.

(** C7. When the inventory extractor succeeds and its output can be
    written, [installed_apps.csv] holds the header followed by one row
    for each entry of the listing that has all three fields, in the order
    of the listing, and nothing for the other entries. *)
Theorem inventory_keeps_complete_entries_in_order w w' listing :
  instproxy_browse E = Some listing →
  fwrite_ok E "installed_apps.csv" = true →
  extract_installed_apps E w = Done 0 w' →
  files w' !! "installed_apps.csv" =
  Some ("App Name,Bundle ID,Version" +:+ LF +:+
        concat_s (map app_row_text (filter app_complete (array_items listing)))).
Proof.
  intros Hb Hw H. pose proof (apps_spec E w) as A. rewrite H in A.
  destruct A as (_ & _ & _ & A). destruct (A eq_refl) as (_ & l' & Hb' & Hrows).
  rewrite Hb in Hb'. injection Hb' as <-. by apply Hrows.
Qed.

End Pipeline.

(** ** The sealer across runs *)

Section Determinism.

Lemma encrypt_chunks_same_cipher E1 E2 fuel ctx unread :
  same_cipher E1 E2 →
  encrypt_chunks E1 fuel ctx unread = encrypt_chunks E2 fuel ctx unread.
Proof.
  intros (Hu & _ & _). revert ctx unread.
  induction fuel as [|fuel IH]; intros ctx unread; [reflexivity|].
  cbn [encrypt_chunks]. unfold EVP_EncryptUpdate. rewrite Hu.
  destruct (String.length _ =? 0)%nat; [reflexivity|].
  by rewrite IH.
Qed.

Lemma sealed_same_cipher E1 E2 plaintext :
  same_cipher E1 E2 → sealed E1 plaintext = sealed E2 plaintext.
Proof.
  intros Hsame. unfold sealed.
  rewrite (encrypt_chunks_same_cipher E1 E2) by done.
  destruct Hsame as (_ & Hf & Ht).
  unfold EVP_EncryptInit_ex, EVP_EncryptFinal_ex, cipher_key. by rewrite Hf, Ht.
Qed.

(** C10. Two runs of [encrypt_file] with the same cipher library and
    binary, on files holding the same bytes, in which nothing fails,
    both return and leave the same bytes in their output files -
    whatever the two devices, clocks, disks and file names are. *)
Theorem sealing_is_deterministic E1 E2 w1 w2 in1 out1 in2 out2 plaintext :
  same_cipher E1 E2 →
  files w1 !! in1 = Some plaintext →
  files w2 !! in2 = Some plaintext →
  in1 ≠ out1 → in2 ≠ out2 →
  seal_unhindered E1 in1 out1 →
  seal_unhindered E2 in2 out2 →
  ∃ w1' w2' sealed_bytes,
    encrypt_file E1 in1 out1 w1 = Done () w1' ∧
    encrypt_file E2 in2 out2 w2 = Done () w2' ∧
    files w1' !! out1 = Some sealed_bytes ∧
    files w2' !! out2 = Some sealed_bytes.
Proof.
  intros Hsame Hf1 Hf2 Hne1 Hne2 (Hr1 & Hw1 & Hok1 & Hc1) (Hr2 & Hw2 & Hok2 & Hc2).
  eexists _, _, (sealed E1 plaintext).
  split; [by apply encrypt_file_run|]. split; [by apply encrypt_file_run|].
  cbn. rewrite Hok1, Hok2, !lookup_insert_eq.
  by rewrite (sealed_same_cipher E1 E2).
Qed.

End Determinism.

(** ** The scenarios, run *)

(** The run in which everything succeeds: the calls made, and the
    descriptor left in heap cell 7 after the session was closed. *)
Example all_well_scenario :
  ∃ w,
    main all_well (init_world ∅) = Done 0 w ∧
    calls w = ["connect_to_device"; "extract_sms_messages"; "encrypt_file";
               "extract_installed_apps"; "generate_report"; "disconnect_from_device"] ∧
    heap w = [None; None; None; None; None; None; None;
              Some (OService "com.apple.mobile.installation_proxy"); None; None; None].
Proof.
  eexists. split; [vm_compute; reflexivity|]. split; vm_compute; reflexivity.
Qed.

Lemma inventory_descriptor_witness :
  ∃ w,
    main all_well (init_world ∅) = Done 0 w ∧
    session_closed w ∧
    live w (length (heap (after_messages all_well ∅)))
      (OService "com.apple.mobile.installation_proxy").
Proof.
  apply (inventory_descriptor_outlives_session all_well ∅
           (opened all_well ∅) (greeted all_well ∅) 0 (after_messages all_well ∅)
           (final_world (extract_installed_apps all_well (after_messages all_well ∅))));
    vm_compute; reflexivity.
Defined.

(** The unknown sender, end to end: the row as the statement returns
    it and the table as it reaches the sealed file (the stand-in cipher
    passes it through). *)
Example unknown_sender_scenario :
  run_query unknown_sender store_with_unknown_sender = [(Some "100", None, Some "hi")] ∧
  files (after_messages unknown_sender ∅) !! "sms_messages.csv.enc" =
    Some ("Date,Phone Number,Message" +:+ LF +:+ "100,(null),hi" +:+ LF +:+ "#").
Proof. split; vm_compute; reflexivity. Qed.

Lemma unknown_sender_witness :
  select_columns unknown_sender (MessageRow (Some 100) (Some 7) (Some "hi"), None)
    ∈ run_query unknown_sender store_with_unknown_sender ∧
  files (final_world
           (write_rows unknown_sender
              [select_columns unknown_sender (MessageRow (Some 100) (Some 7) (Some "hi"), None)]
              (Some "sms_messages.csv")
              (init_world {["sms_messages.csv" := "Date,Phone Number,Message" +:+ LF]})))
    !! "sms_messages.csv" =
  Some (("Date,Phone Number,Message" +:+ LF) +:+
        (fmt_s (Some 100 ≫= sqlite3_datetime unknown_sender) +:+ "," +:+ "(null)" +:+ "," +:+
         fmt_s (Some "hi") +:+ LF)).
Proof.
  apply (unknown_sender_is_written_as_null_marker unknown_sender store_with_unknown_sender
           (MessageRow (Some 100) (Some 7) (Some "hi"))).
  - vm_compute. constructor.
  - reflexivity.
  - vm_compute. reflexivity.
  - reflexivity.
Defined.

(** The ordering scenario of the specification: dates 100, 50, 200 come
    out as 200, 100, 50. *)
Example message_ordering_scenario :
  map (λ r : result_row, r.1.1) (run_query all_well store_of_three) =
  [Some "200"; Some "100"; Some "50"].
Proof. vm_compute. reflexivity. Qed.

(** The inventory scenario of the specification: of A, B (no version)
    and C, exactly A and C are written, in that order. *)
Example inventory_scenario :
  files (final_world (extract_installed_apps all_well (init_world ∅)))
    !! "installed_apps.csv" =
  Some ("App Name,Bundle ID,Version" +:+ LF +:+
        "A,com.a,1.0" +:+ LF +:+ "C,com.c,3" +:+ LF).
Proof. vm_compute. reflexivity. Qed.

Lemma connect_failure_leaks_witness :
  ∃ w' sd,
    connect_to_device afc_client_refused (init_world ∅) = Done (-1) w' ∧
    live w' sd (OService "com.apple.afc") ∧
    ∀ s, device_udid afc_client_refused = Some s →
         ∃ a, udid w' = Some a ∧ live w' a (OCString s).
Proof.
  apply (connect_failure_leaks_descriptor_and_udid afc_client_refused (init_world ∅));
    reflexivity.
Defined.

Lemma disconnect_twice_witness :
  ∃ w1 w2 a,
    disconnect_from_device (greeted all_well ∅) = Done () w1 ∧
    afc w1 = Some a ∧ released w1 a ∧
    disconnect_from_device w1 = Fault w2.
Proof.
  apply (disconnect_twice_releases_twice (greeted all_well ∅)).
  exists 0%nat, 1%nat, 4%nat. vm_compute.
  repeat split. exists "00008030-001C2D3E4F5A". reflexivity.
Defined.

Lemma extractor_failure_witness :
  ∃ r w3 w4 w5 w,
    extract_installed_apps fetch_fails (after_messages fetch_fails ∅) = Done r w3 ∧
    generate_report fetch_fails "forensic_report.txt" w3 = Done () w4 ∧
    disconnect_from_device w4 = Done () w5 ∧
    main fetch_fails (init_world ∅) = Done 0 w ∧
    calls w = ["connect_to_device"; "extract_sms_messages"; "extract_installed_apps";
               "generate_report"; "disconnect_from_device"] ∧
    session_closed w.
Proof.
  apply (extractor_failure_does_not_abort fetch_fails ∅
           (opened fetch_fails ∅) (greeted fetch_fails ∅));
    vm_compute; reflexivity.
Defined.

Lemma raw_copy_witness :
  ∃ bytes w,
    local_copy (greeted all_well ∅) =
      snprintf MAX_FILENAME_LEN (fmt_s (device_udid all_well) +:+ "_sms.db") ∧
    remote_file all_well remote_store = Some bytes ∧
    files (after_messages all_well ∅) !! "sms_messages.csv" = None ∧
    files (after_messages all_well ∅) !! local_copy (greeted all_well ∅) = Some bytes ∧
    main all_well (init_world ∅) = Done 0 w ∧
    files w !! local_copy (greeted all_well ∅) = Some bytes.
Proof.
  apply (raw_copy_outlives_the_run all_well ∅ (opened all_well ∅) (greeted all_well ∅));
    vm_compute; reflexivity.
Defined.

(** The raw copy of the scenario, by name. *)
Example raw_copy_scenario :
  files (final_world (main all_well (init_world ∅))) !! "00008030-001C2D3E4F5A_sms.db" =
  Some "SQLite format 3".
Proof. vm_compute. reflexivity. Qed.

Lemma report_manifest_witness :
  files (final_world (main fetch_fails (init_world ∅))) !! "forensic_report.txt" =
  Some (manifest fetch_fails (device_udid fetch_fails)).
Proof.
  apply (report_lists_both_artifacts_regardless fetch_fails ∅);
    vm_compute; reflexivity.
Defined.

(** C5, as stated, fails: when the message store cannot be fetched,
    the report names [sms_messages.csv.enc] and no such file exists. *)
Lemma report_names_a_missing_artifact : ¬ report_is_honest fetch_fails ∅.
Proof.
  intros Honest.
  assert (is_Some (files (final_world (main fetch_fails (init_world ∅)))
                     !! "sms_messages.csv.enc")) as [content Hcontent].
  { apply (Honest _ (manifest fetch_fails (device_udid fetch_fails))).
    - vm_compute. reflexivity.
    - vm_compute. reflexivity.
    - set_solver.
    - vm_compute. reflexivity. }
  vm_compute in Hcontent. discriminate.
Qed.

Lemma plaintext_removed_witness :
  files (after_messages sealed_file_unwritable ∅) !! "sms_messages.csv" = None.
Proof.
  apply (plaintext_removed_whenever_seal_returns sealed_file_unwritable
           "sms_messages.csv" (greeted sealed_file_unwritable ∅)).
  vm_compute. reflexivity.
Defined.

(** C4, as stated, fails: when writes to the sealed file are refused,
    the seal step stores nothing, returns, and the plaintext table is
    removed all the same. *)
Lemma plaintext_removed_after_failed_seal :
  ¬ plaintext_kept_when_seal_fails sealed_file_unwritable "sms_messages.csv"
      (greeted sealed_file_unwritable ∅).
Proof.
  intros Kept.
  assert (is_Some (files (after_messages sealed_file_unwritable ∅) !! "sms_messages.csv"))
    as [content Hcontent].
  { apply (Kept 0).
    - vm_compute. reflexivity.
    - vm_compute. set_solver.
    - intros (_ & _ & Hw & _). vm_compute in Hw. discriminate. }
  vm_compute in Hcontent. discriminate.
Qed.

(** What that run leaves: an empty sealed file and no plaintext. *)
Example failed_seal_scenario :
  files (after_messages sealed_file_unwritable ∅) !! "sms_messages.csv.enc" = Some EmptyString ∧
  files (after_messages sealed_file_unwritable ∅) !! "sms_messages.csv" = None.
Proof. split; vm_compute; reflexivity. Qed.

Lemma inventory_rows_witness :
  files (final_world (extract_installed_apps all_well (init_world ∅)))
    !! "installed_apps.csv" =
  Some ("App Name,Bundle ID,Version" +:+ LF +:+
        concat_s (map app_row_text (filter app_complete (array_items listing_A_B_C)))).
Proof.
  apply (inventory_keeps_complete_entries_in_order all_well (init_world ∅) _ listing_A_B_C);
    vm_compute; reflexivity.
Defined.

Lemma sealing_deterministic_witness :
  ∃ w1' w2' sealed_bytes,
    encrypt_file all_well "sms_messages.csv" "sms_messages.csv.enc"
      (init_world {["sms_messages.csv" := "Date,Phone Number,Message"]}) = Done () w1' ∧
    encrypt_file fetch_fails "table.csv" "table.sealed"
      (greeted fetch_fails {["table.csv" := "Date,Phone Number,Message"]}) = Done () w2' ∧
    files w1' !! "sms_messages.csv.enc" = Some sealed_bytes ∧
    files w2' !! "table.sealed" = Some sealed_bytes.
Proof.
  apply (sealing_is_deterministic all_well fetch_fails _ _ _ _ _ _ "Date,Phone Number,Message").
  - repeat split; reflexivity.
  - vm_compute. reflexivity.
  - vm_compute. reflexivity.
  - discriminate.
  - discriminate.
  - repeat split; reflexivity.
  - repeat split; reflexivity.
Defined.

(** * Further properties of the program *)

Ltac pad_heap :=
  match goal with
  | |- context [mkWorld ?d ?l ?a ?u ?h ?f ?c ?cs] =>
      replace (mkWorld d l a u h f c cs) with (mkWorld d l a u (h ++ []) f c cs)
        by (by rewrite app_nil_r)
  end.

Ltac open_state w :=
  destruct w as [?d ?l ?a ?u ?h ?f ?c ?cs];
  cbn [device lockdown afc udid heap files console calls];
  pad_heap.

Ltac split_open_flags Hok :=
  let H := fresh in
  unfold open_succeeds in Hok;
  apply andb_prop in Hok as [H ?Hafc]; apply andb_prop in H as [H ?Hsvc];
  apply andb_prop in H as [?Hdev ?Hhs].

Ltac in_list := repeat (apply elem_of_cons; first [by left | right]).

Ltac unfold_connect :=
  unfold connect_to_device, idevice_new, lockdownd_client_new_with_handshake,
    lockdownd_get_device_udid, lockdownd_start_service, afc_client_new.

(** ** More on the session *)

Section SessionMore.
Context (E : Env).

(** X1. [connect_to_device] always returns, with 0 exactly when all four
    steps succeed and with -1 otherwise. *)
Theorem connect_result_code w :
  ∃ r w',
    connect_to_device E w = Done r w' ∧
    (r = 0 ∨ r = -1) ∧
    (r = 0 ↔ open_succeeds E = true).
Proof.
  open_state w. unfold open_succeeds. unfold_connect.
  unfold_state. cbn.
  destruct (idevice_new_ok E); cbn; [heap_step|].
  2: { eexists _, _. split; [reflexivity|]. split; [by right|]. split; discriminate. }
  destruct (handshake_ok E); cbn; repeat heap_step.
  2: { eexists _, _. split; [reflexivity|]. split; [by right|]. split; discriminate. }
  destruct (device_udid E) as [s|]; cbn; repeat heap_step.
  all: destruct (start_service_ok E _); cbn; repeat heap_step.
  all: try destruct (afc_client_new_ok E); cbn; repeat heap_step.
  all: eexists _, _; (split; [reflexivity|]).
  all: split; [by auto|]; split; (discriminate || done).
Qed.

(** X2. On success the three handles are live in the globals, the AFC
    service descriptor has been released, and nothing else changed:
    the call adds the device, the lockdown client, the identifier (when
    retrieved), the released descriptor and the AFC client to the heap. *)
Theorem connect_success_state w :
  open_succeeds E = true →
  ∃ w',
    connect_to_device E w = Done 0 w' ∧
    heap w' = heap w ++ [Some ODevice; Some OLockdown] ++ udid_cell E ++ [None; Some OAfc] ∧
    device w' = Some (length (heap w)) ∧
    lockdown w' = Some (length (heap w) + 1)%nat ∧
    afc w' = Some (length (heap w) + 3 + length (udid_cell E))%nat ∧
    udid w' = match device_udid E with
              | Some _ => Some (length (heap w) + 2)%nat
              | None => udid w
              end ∧
    files w' = files w ∧
    console w' = console w.
Proof.
  intros Hok. split_open_flags Hok. unfold udid_cell.
  open_state w. unfold_connect.
  rewrite Hdev, Hhs, Hsvc, Hafc. unfold_state. cbn. repeat heap_step.
  destruct (device_udid E) as [s|]; cbn; repeat heap_step.
  all: eexists; (split; [reflexivity|]); cbn.
  all: repeat split; try reflexivity; f_equal; lia.
Qed.

(** X3. When no device is found nothing is allocated and no global is
    written: the state is the entry state with one diagnostic printed. *)
Theorem connect_discovery_failure w :
  idevice_new_ok E = false →
  connect_to_device E w =
  Done (-1) (set_console (console w ++ ["Error: Unable to connect to device." +:+ LF])
               (set_calls (calls w ++ ["connect_to_device"]) w)).
Proof.
  intros Hdev. destruct w as [d l a u h f c cs].
  unfold connect_to_device, idevice_new. rewrite Hdev. reflexivity.
Qed.

(** X4. When the handshake fails the device handle is released and no
    lockdown client, identifier or AFC client exists; [device] keeps the
    released address. *)
Theorem connect_handshake_failure w :
  idevice_new_ok E = true →
  handshake_ok E = false →
  ∃ w',
    connect_to_device E w = Done (-1) w' ∧
    heap w' = heap w ++ [None] ∧
    device w' = Some (length (heap w)) ∧
    lockdown w' = lockdown w ∧ afc w' = afc w ∧ udid w' = udid w ∧
    files w' = files w.
Proof.
  intros Hdev Hhs. open_state w. unfold_connect.
  rewrite Hdev, Hhs. unfold_state. cbn. repeat heap_step.
  eexists. split; [reflexivity|]. cbn. rewrite Nat.add_0_r. by repeat split.
Qed.

(** X5. When the AFC service cannot be started the lockdown client and the
    device handle are released; the identifier string, when one was
    retrieved, is all that stays allocated. *)
Theorem connect_service_failure w :
  idevice_new_ok E = true →
  handshake_ok E = true →
  start_service_ok E "com.apple.afc" = false →
  ∃ w',
    connect_to_device E w = Done (-1) w' ∧
    heap w' = heap w ++ [None; None] ++ udid_cell E ∧
    afc w' = afc w ∧
    files w' = files w.
Proof.
  intros Hdev Hhs Hsvc. unfold udid_cell. open_state w. unfold_connect.
  rewrite Hdev, Hhs, Hsvc. unfold_state. cbn. repeat heap_step.
  destruct (device_udid E) as [s|]; cbn; repeat heap_step.
  all: eexists; (split; [reflexivity|]); by repeat split.
Qed.

(** X6. Open followed at once by close: every cell the two calls allocated
    is released again, whatever the heap held before. *)
Theorem open_then_close_leaks_nothing w :
  open_succeeds E = true →
  udid w = None →
  ∃ w1 w2 n,
    connect_to_device E w = Done 0 w1 ∧
    disconnect_from_device w1 = Done () w2 ∧
    heap w2 = heap w ++ replicate n None ∧
    files w2 = files w.
Proof.
  intros Hok Hu. split_open_flags Hok.
  destruct w as [d l a u h f c cs]. cbn in Hu. subst u.
  cbn [device lockdown afc udid heap files console calls]. pad_heap.
  unfold_connect.
  rewrite Hdev, Hhs, Hsvc, Hafc. unfold_state. cbn. repeat heap_step.
  destruct (device_udid E) as [s|]; cbn; repeat heap_step.
  - eexists _, _, 5%nat. split; [reflexivity|].
    unfold disconnect_from_device. unfold_state. cbn. repeat heap_step.
    by repeat split.
  - eexists _, _, 4%nat. split; [reflexivity|].
    unfold disconnect_from_device. unfold_state. cbn. repeat heap_step.
    by repeat split.
Qed.

(** X7. Close of an open session returns; it empties the cells of the AFC
    client, the lockdown client, the device and the identifier and no
    other cell, keeps the four globals as they were, and touches neither
    the files nor the console. *)
Theorem disconnect_releases_the_session_only w :
  session_open w →
  ∃ w',
    disconnect_from_device w = Done () w' ∧
    afc w' = afc w ∧ lockdown w' = lockdown w ∧ device w' = device w ∧ udid w' = udid w ∧
    length (heap w') = length (heap w) ∧
    (∀ i, heap w' !! i =
          if decide (Some i = afc w ∨ Some i = lockdown w ∨ Some i = device w ∨ Some i = udid w)
          then (λ _, None) <$> heap w !! i
          else heap w !! i) ∧
    files w' = files w ∧ console w' = console w.
Proof.
  intros (pd & pl & pa & Hd & Hl & Ha & Ld & Ll & La & Hu).
  destruct w as [d l a u h f c cs]. unfold udid_ok, live in *. cbn in *. subst d l a.
  assert (pa ≠ pl ∧ pa ≠ pd ∧ pl ≠ pd) as (Hal & Had & Hld) by (repeat split; congruence).
  unfold disconnect_from_device, release. unfold_state. cbn.
  rewrite La. cbn.
  rewrite list_lookup_insert_ne by done. rewrite Ll. cbn.
  rewrite !list_lookup_insert_ne by done. rewrite Ld. cbn.
  destruct u as [pu|]; cbn.
  - destruct Hu as [s Hs].
    assert (pa ≠ pu ∧ pl ≠ pu ∧ pd ≠ pu) as (Hau & Hlu & Hdu) by (repeat split; congruence).
    rewrite !list_lookup_insert_ne by done. rewrite Hs. cbn.
    eexists. split; [reflexivity|]. cbn. rewrite !length_insert.
    repeat split; try done. intros i.
    destruct (decide (i = pu)) as [->|Hiu];
      [rewrite decide_True by auto; rewrite Hs; cbn;
       apply list_lookup_insert_eq; rewrite !length_insert; eauto using lookup_lt_Some|].
    rewrite (list_lookup_insert_ne _ pu i) by done.
    destruct (decide (i = pd)) as [->|Hid];
      [rewrite decide_True by auto; rewrite Ld; cbn;
       apply list_lookup_insert_eq; rewrite !length_insert; eauto using lookup_lt_Some|].
    rewrite (list_lookup_insert_ne _ pd i) by done.
    destruct (decide (i = pl)) as [->|Hil];
      [rewrite decide_True by auto; rewrite Ll; cbn;
       apply list_lookup_insert_eq; rewrite !length_insert; eauto using lookup_lt_Some|].
    rewrite (list_lookup_insert_ne _ pl i) by done.
    destruct (decide (i = pa)) as [->|Hia];
      [rewrite decide_True by auto; rewrite La; cbn;
       apply list_lookup_insert_eq; eauto using lookup_lt_Some|].
    rewrite (list_lookup_insert_ne _ pa i) by done.
    rewrite decide_False; [done|]. intros [?|[?|[?|?]]]; congruence.
  - eexists. split; [reflexivity|]. cbn. rewrite !length_insert.
    repeat split; try done. intros i.
    destruct (decide (i = pd)) as [->|Hid];
      [rewrite decide_True by auto; rewrite Ld; cbn;
       apply list_lookup_insert_eq; rewrite !length_insert; eauto using lookup_lt_Some|].
    rewrite (list_lookup_insert_ne _ pd i) by done.
    destruct (decide (i = pl)) as [->|Hil];
      [rewrite decide_True by auto; rewrite Ll; cbn;
       apply list_lookup_insert_eq; rewrite !length_insert; eauto using lookup_lt_Some|].
    rewrite (list_lookup_insert_ne _ pl i) by done.
    destruct (decide (i = pa)) as [->|Hia];
      [rewrite decide_True by auto; rewrite La; cbn;
       apply list_lookup_insert_eq; eauto using lookup_lt_Some|].
    rewrite (list_lookup_insert_ne _ pa i) by done.
    rewrite decide_False; [done|]. intros [?|[?|[?|?]]]; congruence.
Qed.

(** X8. A failed open must not be followed by a close: when a device was
    found and a later step failed, the handles [connect_to_device]
    released are still in the globals, and [disconnect_from_device]
    releases one of them again. *)
Theorem close_after_failed_open_releases_twice w :
  idevice_new_ok E = true →
  open_succeeds E = false →
  afc w = None → lockdown w = None →
  ∃ w1 w2,
    connect_to_device E w = Done (-1) w1 ∧
    disconnect_from_device w1 = Fault w2.
Proof.
  unfold open_succeeds. intros Hdev Hno Hafc Hlock. rewrite Hdev in Hno.
  destruct w as [d l a u h f c cs]. cbn in Hafc, Hlock. subst a l. pad_heap.
  unfold_connect. rewrite Hdev. unfold_state. cbn. repeat heap_step.
  destruct (handshake_ok E); cbn in *; repeat heap_step.
  2: { eexists _, _. split; [reflexivity|].
       unfold disconnect_from_device. unfold_state. cbn. repeat heap_step. reflexivity. }
  destruct (device_udid E) as [s|]; cbn; repeat heap_step.
  all: destruct (start_service_ok E _); cbn in *; repeat heap_step.
  all: try (destruct (afc_client_new_ok E); [discriminate|]; cbn; repeat heap_step).
  all: eexists _, _; (split; [reflexivity|]).
  all: unfold disconnect_from_device; unfold_state; cbn; repeat heap_step; reflexivity.
Qed.

End SessionMore.

(** ** More on the sealer *)

Section SealerMore.
Context (E : Env).

Lemma take_drop_s n s : take_s n s +:+ drop_s n s = s.
Proof.
  revert s. induction n as [|n IH]; intros [|c s]; try reflexivity.
  change (String c (take_s n s +:+ drop_s n s) = String c s). by rewrite IH.
Qed.

Lemma take_s_all n s : (String.length s ≤ n)%nat → take_s n s = s.
Proof.
  revert s. induction n as [|n IH]; intros [|c s] Hlen; cbn in *; try done; [lia|].
  f_equal. apply IH. lia.
Qed.

Lemma drop_s_all n s : (String.length s ≤ n)%nat → drop_s n s = EmptyString.
Proof.
  revert s. induction n as [|n IH]; intros [|c s] Hlen; cbn in *; try done; [lia|].
  apply IH. lia.
Qed.

Lemma encrypt_chunks_absorbs fuel ctx s :
  (String.length s < fuel)%nat →
  fst (encrypt_chunks E fuel ctx s) =
  CipherCtx (ctx_key ctx) (ctx_iv ctx) (ctx_absorbed ctx +:+ s).
Proof.
  revert ctx s. induction fuel as [|fuel IH]; intros ctx s Hfuel; [lia|].
  cbn [encrypt_chunks].
  destruct (String.length (take_s 1024 s) =? 0)%nat eqn:Hlen.
  - apply Nat.eqb_eq in Hlen. destruct s as [|c s]; [|done].
    cbn. rewrite append_nil_r. by destruct ctx.
  - unfold EVP_EncryptUpdate.
    assert (String.length (drop_s 1024 s) < fuel)%nat as Hless.
    { rewrite drop_s_length. destruct s; [done|]. cbn in *. lia. }
    specialize (IH (CipherCtx (ctx_key ctx) (ctx_iv ctx) (ctx_absorbed ctx +:+ take_s 1024 s))
                   (drop_s 1024 s) Hless).
    destruct (encrypt_chunks E fuel _ (drop_s 1024 s)) as [ctx'' rest].
    cbn [fst ctx_key ctx_iv ctx_absorbed] in IH |- *.
    by rewrite IH, append_assoc, take_drop_s.
Qed.

Lemma sealed_final_block plaintext :
  sealed E plaintext =
  snd (encrypt_chunks E (S (String.length plaintext)) (EVP_EncryptInit_ex E) plaintext) +:+
  evp_final E (cipher_key E) None plaintext.
Proof.
  unfold sealed.
  pose proof (encrypt_chunks_absorbs (S (String.length plaintext)) (EVP_EncryptInit_ex E)
                plaintext (Nat.lt_succ_diag_r _)) as Habs.
  destruct (encrypt_chunks E _ _ plaintext) as [ctx body]. cbn in *. by subst ctx.
Qed.

Lemma sealed_short plaintext :
  (String.length plaintext ≤ 1024)%nat →
  sealed E plaintext =
  (if (String.length plaintext =? 0)%nat then EmptyString
   else evp_update E (cipher_key E) None EmptyString plaintext) +:+
  evp_final E (cipher_key E) None plaintext.
Proof.
  intros Hlen. unfold sealed. cbn [encrypt_chunks].
  rewrite (take_s_all 1024) by done. rewrite (drop_s_all 1024) by done.
  destruct (String.length plaintext =? 0)%nat eqn:Hz.
  - apply Nat.eqb_eq in Hz. by destruct plaintext.
  - unfold EVP_EncryptUpdate, EVP_EncryptInit_ex, EVP_EncryptFinal_ex.
    cbn. destruct (String.length plaintext); cbn; by rewrite ?append_nil_r.
Qed.

Lemma cipher_key_bytes F :
  cipher_key F = ENCRYPTION_KEY +:+ String "000"%char (take_s 8 (rodata_tail F)).
Proof. reflexivity. Qed.

Lemma encrypt_chunks_tail tail fuel ctx unread :
  encrypt_chunks (with_tail tail E) fuel ctx unread = encrypt_chunks E fuel ctx unread.
Proof.
  revert ctx unread. induction fuel as [|fuel IH]; intros ctx unread; [reflexivity|].
  cbn [encrypt_chunks]. destruct (String.length _ =? 0)%nat; [reflexivity|].
  unfold EVP_EncryptUpdate. cbn [with_tail evp_update]. by rewrite IH.
Qed.

Lemma sealed_tail tail plaintext :
  take_s 8 tail = take_s 8 (rodata_tail E) →
  sealed (with_tail tail E) plaintext = sealed E plaintext.
Proof.
  intros Htail. unfold sealed. rewrite encrypt_chunks_tail.
  unfold EVP_EncryptInit_ex, EVP_EncryptFinal_ex.
  rewrite (cipher_key_bytes (with_tail tail E)), (cipher_key_bytes E).
  cbn [with_tail rodata_tail evp_final]. by rewrite Htail.
Qed.

Local Arguments encrypt_loop : simpl never.
Local Arguments encrypt_chunks : simpl never.

(** X12. [encrypt_file] returns exactly when the input exists and can be
    opened, the output can be opened and the cipher context is
    allocated; in every other case it does not return: no result of
    [fopen] or [EVP_CIPHER_CTX_new] is checked. *)
Theorem encrypt_file_returns_iff i o w :
  (∃ w', encrypt_file E i o w = Done () w') ↔
  fopen_r_ok E i = true ∧ is_Some (files w !! i) ∧
  fopen_w_ok E o = true ∧ cipher_ctx_new_ok E = true.
Proof.
  destruct w as [d l a u h f c cs].
  unfold encrypt_file, fopen_r, fopen_w, fclose. unfold_state. cbn.
  destruct (fopen_r_ok E i), (f !! i) as [content|] eqn:Hi; cbn;
    destruct (fopen_w_ok E o); cbn;
    destruct (cipher_ctx_new_ok E); cbn.
  all: try solve [split; [intros [w' Hrun]; discriminate Hrun
                         | intros (? & Hsome & ? & ?); try done; by destruct Hsome]].
  - (* both streams open *)
    erewrite encrypt_loop_existing; [|lia|cbn; apply lookup_insert_eq].
    cbn. split; [done|]. intros _.
    destruct (fwrite_ok E o) eqn:Hok; cbn.
    + erewrite fwrite_existing by (cbn; apply lookup_insert_eq). by eexists.
    + erewrite fwrite_existing by (cbn; apply lookup_insert_eq). by eexists.
  - (* the output stream is null *)
    split; [|intros (? & ? & ? & ?); done].
    intros [w' Hrun]. exfalso.
    match type of Hrun with context [encrypt_loop E ?n ?ctx ?s None ?w] =>
      pose proof (encrypt_loop_null E n ctx s w) as Hloop;
      destruct (encrypt_loop E n ctx s None w) as [ctx' w''|w''] end; [|done].
    unfold fwrite in Hrun.
    destruct (String.length _ =? 0)%nat; cbn in Hrun; done.
Qed.

(** X13. With distinct names and nothing failing to open, [encrypt_file]
    returns with the sealed bytes of the input in the output file - or
    with an empty output file when writing to it fails, which it does
    not report - and with the input, every other file, the heap and the
    console as they were. *)
Theorem encrypt_file_changes_the_output_only i o w content :
  i ≠ o →
  files w !! i = Some content →
  fopen_r_ok E i = true →
  fopen_w_ok E o = true →
  cipher_ctx_new_ok E = true →
  ∃ w',
    encrypt_file E i o w = Done () w' ∧
    files w' !! o = Some (if fwrite_ok E o then sealed E content else EmptyString) ∧
    files w' !! i = Some content ∧
    (∀ p, p ≠ o → files w' !! p = files w !! p) ∧
    heap w' = heap w ∧ console w' = console w.
Proof.
  intros Hio Hi Hr Hw Hctx. eexists. split; [by apply encrypt_file_run|].
  destruct w as [d l a u h f c cs]. cbn in *.
  split; [apply lookup_insert_eq|]. split; [by rewrite lookup_insert_ne|].
  split; [|done]. intros p Hp. by rewrite lookup_insert_ne.
Qed.

(** X14. When input and output are one file, the file is truncated before
    it is read: what is sealed is the empty string, and the content is
    lost. *)
Theorem encrypt_file_onto_itself p w content :
  files w !! p = Some content →
  fopen_r_ok E p = true →
  fopen_w_ok E p = true →
  cipher_ctx_new_ok E = true →
  ∃ w',
    encrypt_file E p p w = Done () w' ∧
    files w' !! p =
      Some (if fwrite_ok E p then evp_final E (cipher_key E) None EmptyString
            else EmptyString).
Proof.
  intros Hp Hr Hw Hctx. destruct w as [d l a u h f c cs]. cbn in Hp.
  unfold encrypt_file, fopen_r, fopen_w, fclose. unfold_state. cbn.
  rewrite Hr, Hp, Hw, Hctx. cbn. rewrite lookup_insert_eq. cbn.
  erewrite encrypt_loop_existing; [|cbn; lia|cbn; apply lookup_insert_eq].
  cbn [encrypt_chunks String.length take_s Nat.eqb fst snd].
  destruct (fwrite_ok E p) eqn:Hok; cbn.
  - erewrite fwrite_existing by (cbn; apply lookup_insert_eq).
    rewrite Hok. eexists. split; [reflexivity|]. cbn. by rewrite lookup_insert_eq.
  - erewrite fwrite_existing by (cbn; apply lookup_insert_eq).
    rewrite Hok. eexists. split; [reflexivity|]. cbn. by rewrite lookup_insert_eq.
Qed.

(** X9. The sealed file ends with the closing block of a context that
    was keyed with [cipher_key], given no IV, and has absorbed the whole
    input file: reading it in chunks of 1024 bytes loses and reorders
    nothing. *)
Theorem encrypt_file_closes_over_whole_input i o w content :
  i ≠ o →
  files w !! i = Some content →
  fopen_r_ok E i = true →
  fopen_w_ok E o = true →
  cipher_ctx_new_ok E = true →
  fwrite_ok E o = true →
  ∃ w' body,
    encrypt_file E i o w = Done () w' ∧
    files w' !! o = Some (body +:+ evp_final E (cipher_key E) None content).
Proof.
  intros Hio Hi Hr Hw Hctx Hwrite. eexists _, _.
  split; [by apply encrypt_file_run|].
  destruct w as [d l a u h f c cs]. cbn. rewrite Hwrite, lookup_insert_eq.
  by rewrite sealed_final_block.
Qed.

(** X10. An input file of at most 1024 bytes is sealed by one update
    call on the whole of it followed by the closing block; an empty
    input file by the closing block alone. *)
Theorem encrypt_file_short_input i o w content :
  i ≠ o →
  files w !! i = Some content →
  (String.length content ≤ 1024)%nat →
  fopen_r_ok E i = true →
  fopen_w_ok E o = true →
  cipher_ctx_new_ok E = true →
  fwrite_ok E o = true →
  ∃ w',
    encrypt_file E i o w = Done () w' ∧
    files w' !! o =
      Some ((if (String.length content =? 0)%nat then EmptyString
             else evp_update E (cipher_key E) None EmptyString content) +:+
            evp_final E (cipher_key E) None content).
Proof.
  intros Hio Hi Hlen Hr Hw Hctx Hwrite. eexists.
  split; [by apply encrypt_file_run|].
  destruct w as [d l a u h f c cs]. cbn. rewrite Hwrite, lookup_insert_eq.
  by rewrite sealed_short.
Qed.

(** X11. [encrypt_file] hands the cipher 32 key bytes where the literal
    holds 23 characters and a terminator: the closing block it writes is
    keyed with the literal, the terminator and the first eight bytes that
    follow it in the binary, and a binary that differs only after those
    eight bytes writes the same file. *)
Theorem encrypt_file_key_runs_past_the_literal i o w content tail :
  i ≠ o →
  files w !! i = Some content →
  fopen_r_ok E i = true →
  fopen_w_ok E o = true →
  cipher_ctx_new_ok E = true →
  fwrite_ok E o = true →
  take_s 8 tail = take_s 8 (rodata_tail E) →
  ∃ w' body,
    encrypt_file E i o w = Done () w' ∧
    files w' !! o =
      Some (body +:+
            evp_final E (ENCRYPTION_KEY +:+ String "000"%char (take_s 8 (rodata_tail E)))
              None content) ∧
    encrypt_file (with_tail tail E) i o w = Done () w'.
Proof.
  intros Hio Hi Hr Hw Hctx Hwrite Htail. eexists _, _.
  split; [by apply encrypt_file_run|].
  split.
  - destruct w as [d l a u h f c cs]. cbn. rewrite Hwrite, lookup_insert_eq.
    by rewrite sealed_final_block, cipher_key_bytes.
  - rewrite (encrypt_file_run (with_tail tail E) i o w content) by done.
    cbn [with_tail fwrite_ok]. by rewrite sealed_tail.
Qed.

End SealerMore.

(** ** More on the query *)

Section QueryMore.
Context (E : Env).

Lemma date_leb_trans a b c :
  date_leb a b = true → date_leb b c = true → date_leb a c = true.
Proof.
  destruct a as [x|], b as [y|], c as [z|]; cbn; try done.
  rewrite !Z.leb_le. lia.
Qed.

Lemma left_join_member m oh ms hs :
  m ∈ ms → (m, oh) ∈ left_join_one hs m → (m, oh) ∈ left_join ms hs.
Proof.
  intros Hin Hone. unfold left_join.
  induction Hin as [m ms|m m' ms Hin IH];
    change (concat (map (left_join_one hs) (?x :: ms)))
      with (left_join_one hs x ++ concat (map (left_join_one hs) ms));
    apply elem_of_app; [by left | right; by apply IH].
Qed.

(** X15. The rows of the statement are the rows of the left join, none
    added and none dropped, each date at least as late as every date
    that follows it (a NULL date counting as the earliest). *)
Theorem query_rows_are_the_join_newest_first db :
  ∃ rows,
    run_query E db = map (select_columns E) rows ∧
    rows ≡ₚ left_join (message db) (handle db) ∧
    StronglySorted date_desc rows.
Proof.
  exists (order_by_date_desc (left_join (message db) (handle db))).
  split; [done|]. split; [apply order_by_date_desc_perm|].
  apply Sorted_StronglySorted; [|apply order_by_date_desc_sorted].
  intros r1 r2 r3. unfold date_desc. intros H12 H23. by eapply date_leb_trans.
Qed.

(** X16. No message is lost by the join: every message of the table has a
    row in the result, with the identifier of a handle row it matches,
    or with a NULL sender when it matches none. *)
Theorem every_message_is_listed db m :
  m ∈ message db →
  ∃ sender,
    (m_date m ≫= sqlite3_datetime E, sender, m_text m) ∈ run_query E db ∧
    ((∃ h, h ∈ handle db ∧ m_handle_id m = Some (h_ROWID h) ∧ sender = h_id h) ∨
     (join_matches m (handle db) = [] ∧ sender = None)).
Proof.
  intros Hm.
  assert (∀ oh, (m, oh) ∈ left_join (message db) (handle db) →
                select_columns E (m, oh) ∈ run_query E db) as Hrow.
  { intros oh Hin. unfold run_query. apply list_elem_of_fmap_2' with (x := (m, oh)); [|done].
    by rewrite order_by_date_desc_perm. }
  destruct (join_matches m (handle db)) as [|h found] eqn:Hfound.
  - exists None. split; [|by right].
    apply (Hrow None). by apply left_join_keeps_unmatched.
  - exists (h_id h). split.
    + apply (Hrow (Some h)). apply left_join_member; [done|].
      unfold left_join_one. rewrite Hfound. cbn. apply elem_of_cons. by left.
    + left. exists h.
      assert (h ∈ join_matches m (handle db)) as Hh
        by (rewrite Hfound; apply elem_of_cons; by left).
      unfold join_matches in Hh. apply list_elem_of_filter in Hh as [Hid Hh]. done.
Qed.

(** X17. When [handle.ROWID] is a key, the result has one row per message:
    its date and text columns are, up to order, those of the message
    table. *)
Theorem one_row_per_message_when_rowid_is_key db :
  NoDup (map h_ROWID (handle db)) →
  map (λ r : result_row, (r.1.1, r.2)) (run_query E db) ≡ₚ
  map (λ m, (m_date m ≫= sqlite3_datetime E, m_text m)) (message db).
Proof.
  intros Hkeys. unfold run_query. rewrite <- list_fmap_compose.
  rewrite <- (left_join_one_per_message (message db) (handle db) Hkeys) at 2.
  rewrite <- list_fmap_compose.
  by rewrite order_by_date_desc_perm.
Qed.

End QueryMore.

(** ** More on the message extractor *)

Section MessagesMore.
Context (E : Env).

Lemma read_udid_ok w :
  udid_ok w → (let* p := gets udid in read_cstr p) w = Done (udid_string w) w.
Proof. intros Hok. by destruct (read_udid w) as [? | [_ ?]]. Qed.

Lemma sms_success_run output_file w bytes db :
  udid_ok w →
  local_copy w ≠ output_file →
  local_copy w ≠ sealed_name output_file →
  output_file ≠ sealed_name output_file →
  remote_file E remote_store = Some bytes →
  fopen_w_ok E (local_copy w) = true →
  fwrite_ok E (local_copy w) = true →
  sqlite3_open_ok E = true →
  sqlite3_decode E bytes = Some db →
  fopen_w_ok E output_file = true →
  fwrite_ok E output_file = true →
  seal_unhindered E output_file (sealed_name output_file) →
  ∃ w',
    extract_sms_messages E output_file w = Done 0 w' ∧
    files w' !! sealed_name output_file =
      Some (sealed E (("Date,Phone Number,Message" +:+ LF) +:+
                      concat_s (map row_text (run_query E db)))) ∧
    files w' !! output_file = None ∧
    files w' !! local_copy w = Some bytes ∧
    (∀ p, p ≠ sealed_name output_file → p ≠ output_file → p ≠ local_copy w →
          files w' !! p = files w !! p) ∧
    heap w' = heap w ++ [None; None] ∧
    device w' = device w ∧ lockdown w' = lockdown w ∧ afc w' = afc w ∧ udid w' = udid w ∧
    console w' =
      console w ++ ["SMS messages extracted and encrypted to " +:+
                    sealed_name output_file +:+ LF] ∧
    calls w' = calls w ++ ["extract_sms_messages"; "encrypt_file"].
Proof.
  intros Hu Hlo Hle Hoe Hremote Hlopen Hlwrite Hdb Hdecode Hopen Hwrite
    (Hsr & Hsw & Hswrite & Hctx).
  unfold extract_sms_messages. unfold bind at 1. unfold enter, modify at 1.
  unfold bind at 1.
  rewrite (read_udid_ok (set_calls (calls w ++ ["extract_sms_messages"]) w))
    by (by destruct w).
  replace (udid_string (set_calls (calls w ++ ["extract_sms_messages"]) w))
    with (udid_string w) by (by destruct w).
  change (snprintf MAX_FILENAME_LEN (fmt_s (udid_string w) +:+ "_sms.db"))
    with (local_copy w).
  change (snprintf MAX_FILENAME_LEN (output_file +:+ ".enc")) with (sealed_name output_file).
  change "/var/mobile/Library/SMS/sms.db" with remote_store.
  set (local := local_copy w) in *. set (enc := sealed_name output_file) in *.
  clearbody local enc.
  destruct w as [d l a u h f c cs]. pad_heap.
  unfold copy_file, sqlite3_open, sqlite3_prepare_v2, fopen_w, fclose, remove.
  unfold_state. cbn.
  rewrite Hremote. cbn. rewrite Hlopen. cbn. rewrite Hlwrite. cbn.
  erewrite fwrite_existing by (cbn; apply lookup_insert_eq).
  rewrite Hlwrite. unfold set_files. cbn. rewrite insert_insert_eq.
  heap_step. rewrite Hdb. cbn. rewrite Hopen. cbn.
  rewrite lookup_insert_ne by congruence. rewrite lookup_insert_eq. cbn.
  change (EmptyString +:+ bytes) with bytes.
  rewrite Hdecode. cbn. heap_step.
  erewrite fprintf_existing by (cbn; apply lookup_insert_eq).
  rewrite Hwrite.
  erewrite write_rows_existing by (cbn; apply lookup_insert_eq).
  rewrite Hwrite. unfold set_files. cbn. repeat heap_step.
  erewrite encrypt_file_run; [|done|cbn; apply lookup_insert_eq|done..].
  rewrite Hswrite. unfold set_files, set_calls. cbn.
  eexists. split; [reflexivity|]. cbn. rewrite !insert_insert_eq.
  split.
  { rewrite lookup_delete_ne by congruence. by rewrite lookup_insert_eq. }
  split; [apply lookup_delete_eq|].
  split.
  { rewrite lookup_delete_ne by congruence. rewrite !lookup_insert_ne by congruence.
    apply lookup_insert_eq. }
  split.
  { intros p Hp1 Hp2 Hp3. rewrite lookup_delete_ne by congruence.
    by rewrite !lookup_insert_ne by congruence. }
  split; [by rewrite app_nil_r|].
  repeat split. by rewrite <- (assoc_L (++)).
Qed.

(** X18. When every step succeeds and the three file names differ, the
    extractor returns 0 and leaves exactly this: the sealed file holding
    the sealed table (header, then one line per row of the statement),
    no plaintext table, the fetched copy of the store, every other file
    as it was, and both sqlite handles released. *)
Theorem extract_sms_messages_success output_file w bytes db :
  udid_ok w →
  local_copy w ≠ output_file →
  local_copy w ≠ sealed_name output_file →
  output_file ≠ sealed_name output_file →
  remote_file E remote_store = Some bytes →
  fopen_w_ok E (local_copy w) = true →
  fwrite_ok E (local_copy w) = true →
  sqlite3_open_ok E = true →
  sqlite3_decode E bytes = Some db →
  fopen_w_ok E output_file = true →
  fwrite_ok E output_file = true →
  seal_unhindered E output_file (sealed_name output_file) →
  ∃ w',
    extract_sms_messages E output_file w = Done 0 w' ∧
    files w' !! sealed_name output_file =
      Some (sealed E (("Date,Phone Number,Message" +:+ LF) +:+
                      concat_s (map row_text (run_query E db)))) ∧
    files w' !! output_file = None ∧
    files w' !! local_copy w = Some bytes ∧
    (∀ p, p ≠ sealed_name output_file → p ≠ output_file → p ≠ local_copy w →
          files w' !! p = files w !! p) ∧
    heap w' = heap w ++ [None; None].
Proof.
  intros Hu Hlo Hle Hoe Hremote Hlopen Hlwrite Hdb Hdecode Hopen Hwrite Hseal.
  destruct (sms_success_run output_file w bytes db)
    as (w' & Hrun & Henc & Hgone & Hcopy & Hrest & Hheap & _); try done.
  by exists w'.
Qed.

(** X19. When the copied store cannot be opened the extractor returns -1
    without closing the connection handle that [sqlite3_open] handed
    out: the handle stays allocated, and the fetched copy stays on
    disk. *)
Theorem extract_sms_open_failure_keeps_the_handle output_file w bytes :
  udid_ok w →
  remote_file E remote_store = Some bytes →
  fopen_w_ok E (local_copy w) = true →
  fwrite_ok E (local_copy w) = true →
  sqlite3_open_ok E = false →
  ∃ w',
    extract_sms_messages E output_file w = Done (-1) w' ∧
    heap w' = heap w ++ [Some OSqlite] ∧
    files w' = <[local_copy w := bytes]> (files w).
Proof.
  intros Hu Hremote Hlopen Hlwrite Hdb.
  unfold extract_sms_messages. unfold bind at 1. unfold enter, modify at 1.
  unfold bind at 1.
  rewrite (read_udid_ok (set_calls (calls w ++ ["extract_sms_messages"]) w))
    by (by destruct w).
  replace (udid_string (set_calls (calls w ++ ["extract_sms_messages"]) w))
    with (udid_string w) by (by destruct w).
  change (snprintf MAX_FILENAME_LEN (fmt_s (udid_string w) +:+ "_sms.db"))
    with (local_copy w).
  change "/var/mobile/Library/SMS/sms.db" with remote_store.
  set (local := local_copy w) in *. clearbody local.
  destruct w as [d l a u h f c cs]. pad_heap.
  unfold copy_file, sqlite3_open, fopen_w, fclose.
  unfold_state. cbn.
  rewrite Hremote. cbn. rewrite Hlopen. cbn. rewrite Hlwrite. cbn.
  erewrite fwrite_existing by (cbn; apply lookup_insert_eq).
  rewrite Hlwrite. unfold set_files. cbn. rewrite insert_insert_eq.
  heap_step. rewrite Hdb. cbn.
  eexists. split; [reflexivity|]. cbn. by rewrite app_nil_r.
Qed.

(** X20. When the statement cannot be prepared the extractor returns -1 with
    the connection closed, and leaves the output file it had already
    opened behind, empty: whatever that file held before is lost, and
    nothing is sealed. *)
Theorem extract_sms_prepare_failure_leaves_empty_table output_file w bytes :
  udid_ok w →
  local_copy w ≠ output_file →
  remote_file E remote_store = Some bytes →
  fopen_w_ok E (local_copy w) = true →
  fwrite_ok E (local_copy w) = true →
  sqlite3_open_ok E = true →
  fopen_w_ok E output_file = true →
  sqlite3_decode E bytes = None →
  ∃ w',
    extract_sms_messages E output_file w = Done (-1) w' ∧
    heap w' = heap w ++ [None] ∧
    files w' = <[output_file := EmptyString]> (<[local_copy w := bytes]> (files w)) ∧
    calls w' = calls w ++ ["extract_sms_messages"].
Proof.
  intros Hu Hlo Hremote Hlopen Hlwrite Hdb Hopen Hdecode.
  unfold extract_sms_messages. unfold bind at 1. unfold enter, modify at 1.
  unfold bind at 1.
  rewrite (read_udid_ok (set_calls (calls w ++ ["extract_sms_messages"]) w))
    by (by destruct w).
  replace (udid_string (set_calls (calls w ++ ["extract_sms_messages"]) w))
    with (udid_string w) by (by destruct w).
  change (snprintf MAX_FILENAME_LEN (fmt_s (udid_string w) +:+ "_sms.db"))
    with (local_copy w).
  change "/var/mobile/Library/SMS/sms.db" with remote_store.
  set (local := local_copy w) in *. clearbody local.
  destruct w as [d l a u h f c cs]. pad_heap.
  unfold copy_file, sqlite3_open, sqlite3_prepare_v2, fopen_w, fclose.
  unfold_state. cbn.
  rewrite Hremote. cbn. rewrite Hlopen. cbn. rewrite Hlwrite. cbn.
  erewrite fwrite_existing by (cbn; apply lookup_insert_eq).
  rewrite Hlwrite. unfold set_files. cbn. rewrite insert_insert_eq.
  heap_step. rewrite Hdb. cbn. rewrite Hopen. cbn.
  rewrite lookup_insert_ne by congruence. rewrite lookup_insert_eq. cbn.
  change (EmptyString +:+ bytes) with bytes.
  rewrite Hdecode. cbn. heap_step.
  eexists. split; [reflexivity|]. cbn. by rewrite app_nil_r.
Qed.

Lemma take_s_append s t : take_s (String.length s) (s +:+ t) = s.
Proof.
  induction s as [|c s IH]; [by destruct t|].
  change (String c (take_s (String.length s) (s +:+ t)) = String c s). by rewrite IH.
Qed.

(** X21. An output name of exactly 255 characters leaves no room for the
    suffix: the name of the sealed file is the output name itself, and
    an extraction that returns 0 has removed that one file - no sealed
    table exists. *)
Theorem sealed_file_lost_for_a_255_character_name output_file w w' :
  String.length output_file = 255%nat →
  extract_sms_messages E output_file w = Done 0 w' →
  sealed_name output_file = output_file ∧
  files w' !! sealed_name output_file = None.
Proof.
  intros Hlen Hrun.
  assert (sealed_name output_file = output_file) as Hname.
  { unfold sealed_name, snprintf, MAX_FILENAME_LEN.
    change (256 - 1)%nat with 255%nat. rewrite <- Hlen. apply take_s_append. }
  split; [done|]. rewrite Hname.
  pose proof (sms_spec E output_file w) as M. rewrite Hrun in M.
  by destruct M as (_ & [[Hr _] | (_ & _ & Mgone & _)]).
Qed.

End MessagesMore.

(** ** More on the inventory extractor *)

Section InventoryMore.
Context (E : Env).

Lemma inventory_code w :
  sat (extract_installed_apps E w)
      (λ r w',
         ((r = 0 ∧ inventory_succeeds E = true) ∨
          (r = -1 ∧ inventory_succeeds E = false ∧ files w' = files w)) ∧
         ∃ n, heap w' =
              heap w ++
              (if start_service_ok E "com.apple.mobile.installation_proxy" &&
                  instproxy_client_new_ok E
               then [Some (OService "com.apple.mobile.installation_proxy")] else []) ++
              replicate n None)
      never.
Proof.
  open_world w.
  unfold inventory_succeeds, extract_installed_apps, lockdownd_start_service,
    instproxy_client_new, fopen_w, fclose.
  unfold_state. cbn.
  destruct (start_service_ok E _); cbn.
  2: { split; [by right|]. by exists 0%nat. }
  heap_step.
  destruct (instproxy_client_new_ok E); cbn.
  2: { heap_step. split; [by right|]. by exists 1%nat. }
  repeat heap_step.
  destruct (instproxy_browse E) as [listing|]; cbn.
  2: { repeat heap_step. split; [by right|]. by exists 2%nat. }
  repeat heap_step.
  destruct (fopen_w_ok E _); cbn.
  2: { repeat heap_step. split; [by right|]. by exists 3%nat. }
  rewrite (fprintf_existing _ _ _ _ EmptyString) by (cbn; apply lookup_insert_eq).
  destruct (fwrite_ok E "installed_apps.csv") eqn:Hok.
  - erewrite apps_loop_existing by (cbn; apply lookup_insert_eq).
    rewrite Hok. unfold set_files. cbn. repeat heap_step.
    split; [by left|]. by exists 3%nat.
  - erewrite apps_loop_existing by (cbn; apply lookup_insert_eq).
    rewrite Hok. cbn. repeat heap_step.
    split; [by left|]. by exists 3%nat.
Qed.

(** X22. The inventory extractor always returns: 0 exactly when the service
    starts, the client is created, the listing is retrieved and the
    output file opens, and -1 otherwise, in which case no file was
    touched. *)
Theorem inventory_result_code w :
  ∃ r w',
    extract_installed_apps E w = Done r w' ∧
    (r = 0 ∨ r = -1) ∧
    (r = 0 ↔ inventory_succeeds E = true) ∧
    (r = -1 → files w' = files w).
Proof.
  pose proof (inventory_code w) as C.
  destruct (extract_installed_apps E w) as [r w'|]; [|done].
  exists r, w'. split; [done|].
  destruct C as ([[-> Hok] | (-> & Hno & Hfiles)] & _).
  - repeat split; auto. discriminate.
  - repeat split; auto; [discriminate|]. rewrite Hno. discriminate.
Qed.

(** X23. Whatever its result, the extractor has released everything it
    allocated when it returns, except the service descriptor once the
    client exists: that one is released on no path that follows. *)
Theorem inventory_releases_all_but_the_descriptor w :
  ∃ r w' n,
    extract_installed_apps E w = Done r w' ∧
    heap w' =
    heap w ++
    (if start_service_ok E "com.apple.mobile.installation_proxy" && instproxy_client_new_ok E
     then [Some (OService "com.apple.mobile.installation_proxy")] else []) ++
    replicate n None.
Proof.
  pose proof (inventory_code w) as C.
  destruct (extract_installed_apps E w) as [r w'|]; [|done].
  destruct C as (_ & n & Hheap). by exists r, w', n.
Qed.

(** X24. A failed write is not noticed: when the output file opens and
    nothing can be written to it, the extractor returns 0 and leaves the
    file empty. *)
Theorem inventory_write_failure_is_silent w :
  inventory_succeeds E = true →
  fwrite_ok E "installed_apps.csv" = false →
  ∃ w',
    extract_installed_apps E w = Done 0 w' ∧
    files w' !! "installed_apps.csv" = Some EmptyString.
Proof.
  unfold inventory_succeeds. intros Hok Hwrite.
  apply andb_prop in Hok as [Hok Hopen]. apply andb_prop in Hok as [Hok Hlist].
  apply andb_prop in Hok as [Hsvc Hcli].
  apply bool_decide_eq_true in Hlist as [listing Hlist].
  open_state w.
  unfold extract_installed_apps, lockdownd_start_service, instproxy_client_new, fopen_w, fclose.
  unfold_state. cbn.
  rewrite Hsvc. cbn. heap_step. rewrite Hcli. cbn. repeat heap_step.
  rewrite Hlist. cbn. repeat heap_step. rewrite Hopen. cbn.
  rewrite (fprintf_existing _ _ _ _ EmptyString) by (cbn; apply lookup_insert_eq).
  rewrite Hwrite.
  erewrite apps_loop_existing by (cbn; apply lookup_insert_eq).
  rewrite Hwrite. cbn. repeat heap_step.
  eexists. split; [reflexivity|]. cbn. apply lookup_insert_eq.
Qed.

End InventoryMore.

(** ** More on the report *)

Section ReportMore.
Context (E : Env).

(** X25. When the report file cannot be opened the synthesizer prints one
    diagnostic and returns: nothing is written, and the device
    identifier is not read. *)
Theorem report_open_failure output_file w :
  fopen_w_ok E output_file = false →
  generate_report E output_file w =
  Done () (set_console (console w ++ ["Error: Unable to create report file." +:+ LF])
             (set_calls (calls w ++ ["generate_report"]) w)).
Proof.
  intros Hopen. destruct w as [d l a u h f c cs].
  unfold generate_report, fopen_w. rewrite Hopen. reflexivity.
Qed.

End ReportMore.

(** ** More on the whole run *)

Section MainMore.
Context (E : Env).

Lemma connect_code w :
  sat (connect_to_device E w)
      (λ r w', (r = 0 ∧ open_succeeds E = true) ∨ (r = -1 ∧ open_succeeds E = false))
      never.
Proof.
  open_world w. unfold open_succeeds. unfold_connect. unfold_state. cbn.
  destruct (idevice_new_ok E); cbn; [heap_step|by right].
  destruct (handshake_ok E); cbn; repeat heap_step; [|by right].
  destruct (device_udid E) as [s|]; cbn; repeat heap_step.
  all: destruct (start_service_ok E _); cbn; repeat heap_step; [|by right].
  all: destruct (afc_client_new_ok E); cbn; repeat heap_step; [by left|by right].
Qed.

Lemma encrypt_loop_null_same fuel ctx unread w :
  sat (encrypt_loop E fuel ctx unread None w) (λ _ w', w' = w) (λ w', w' = w).
Proof.
  revert ctx unread. induction fuel as [|fuel IH]; intros ctx unread; [reflexivity|].
  cbn [encrypt_loop].
  destruct (String.length (take_s 1024 unread) =? 0)%nat; [reflexivity|].
  unfold EVP_EncryptUpdate. cbn -[take_s drop_s fwrite]. unfold bind, fwrite.
  destruct (String.length _ =? 0)%nat; [apply IH | reflexivity].
Qed.

Local Arguments encrypt_loop : simpl never.

Lemma encrypt_file_fault i o w w' :
  encrypt_file E i o w = Fault w' → calls w' = calls w ++ ["encrypt_file"].
Proof.
  destruct w as [d l a u h f c cs].
  unfold encrypt_file, fopen_r, fopen_w, fclose. unfold_state. cbn.
  destruct (fopen_r_ok E i), (f !! i) as [content|] eqn:Hi; cbn;
    destruct (fopen_w_ok E o); cbn;
    destruct (cipher_ctx_new_ok E); cbn; try (by intros [= <-]).
  - erewrite encrypt_loop_existing; [|lia|cbn; apply lookup_insert_eq].
    cbn. destruct (fwrite_ok E o) eqn:Hok; cbn.
    + erewrite fwrite_existing by (cbn; apply lookup_insert_eq). done.
    + erewrite fwrite_existing by (cbn; apply lookup_insert_eq). done.
  - match goal with |- context [encrypt_loop E ?n ?ctx ?s None ?w] =>
      pose proof (encrypt_loop_null_same n ctx s w) as Hloop;
      destruct (encrypt_loop E n ctx s None w) as [ctx' w''|w''] end;
      cbn in Hloop; subst w''; [|by intros [= <-]].
    unfold fwrite. destruct (String.length _ =? 0)%nat; cbn; by intros [= <-].
Qed.

Lemma sms_fault output_file w w' :
  udid_ok w →
  output_file ≠ sealed_name output_file →
  extract_sms_messages E output_file w = Fault w' →
  calls w' = calls w ++ ["extract_sms_messages"; "encrypt_file"] ∧
  ¬ (fopen_r_ok E output_file = true ∧ fopen_w_ok E (sealed_name output_file) = true ∧
     cipher_ctx_new_ok E = true).
Proof.
  intros Hu Hoe.
  unfold extract_sms_messages. unfold bind at 1. unfold enter, modify at 1.
  unfold bind at 1.
  rewrite (read_udid_ok (set_calls (calls w ++ ["extract_sms_messages"]) w))
    by (by destruct w).
  change (snprintf MAX_FILENAME_LEN (output_file +:+ ".enc")) with (sealed_name output_file).
  set (enc := sealed_name output_file) in *. clearbody enc.
  set (local := snprintf MAX_FILENAME_LEN _). clearbody local.
  destruct w as [d l a u h f c cs]. pad_heap.
  unfold copy_file, sqlite3_open, sqlite3_prepare_v2, fopen_w, fclose, remove.
  unfold_state. cbn.
  destruct (remote_file E _) as [bytes|]; cbn; [|done].
  destruct (fopen_w_ok E local); cbn; [|done].
  destruct (fwrite_ok E local) eqn:Hlocal; cbn; [|done].
  erewrite fwrite_existing by (cbn; apply lookup_insert_eq).
  rewrite Hlocal. unfold set_files. cbn. rewrite insert_insert_eq.
  heap_step.
  destruct (sqlite3_open_ok E); cbn; [|done].
  destruct (fopen_w_ok E output_file); cbn; [|heap_step; done].
  destruct (_ ≫= sqlite3_decode E) as [db|]; cbn; [|heap_step; done].
  heap_step.
  destruct (fwrite_ok E output_file) eqn:Hout.
  all: erewrite fprintf_existing by (cbn; apply lookup_insert_eq).
  all: rewrite Hout.
  all: erewrite write_rows_existing by (cbn; apply lookup_insert_eq).
  all: rewrite Hout; unfold set_files; cbn; repeat heap_step.
  all: match goal with |- context [encrypt_file E ?i ?o ?w] =>
         destruct (encrypt_file E i o w) as [[] w''|w''] eqn:Henc end; [done|].
  all: intros [= <-]; split;
         [apply encrypt_file_fault in Henc; cbn in Henc;
          by rewrite Henc, <- (assoc_L (++))|].
  all: intros (Hr & Hw & Hctx).
  all: erewrite encrypt_file_run in Henc;
         [discriminate|done|cbn; apply lookup_insert_eq|done..].
Qed.

Lemma encrypt_file_done i o w w' :
  encrypt_file E i o w = Done () w' →
  fopen_r_ok E i = true ∧ fopen_w_ok E o = true ∧ cipher_ctx_new_ok E = true.
Proof.
  destruct w as [d l a u h f c cs].
  unfold encrypt_file, fopen_r, fopen_w, fclose. unfold_state. cbn.
  destruct (fopen_r_ok E i), (f !! i) as [content|] eqn:Hi; cbn;
    destruct (fopen_w_ok E o); cbn;
    destruct (cipher_ctx_new_ok E); cbn; try done.
  match goal with |- context [encrypt_loop E ?n ?ctx ?s None ?w] =>
    destruct (encrypt_loop E n ctx s None w) as [ctx' w''|w''] end; [|done].
  unfold fwrite. destruct (String.length _ =? 0)%nat; cbn; done.
Qed.

Lemma sms_seal_fault output_file w bytes db :
  udid_ok w →
  local_copy w ≠ output_file →
  remote_file E remote_store = Some bytes →
  writable E (local_copy w) →
  sqlite3_open_ok E = true →
  fopen_w_ok E output_file = true →
  sqlite3_decode E bytes = Some db →
  ¬ (fopen_r_ok E output_file = true ∧ fopen_w_ok E (sealed_name output_file) = true ∧
     cipher_ctx_new_ok E = true) →
  ∃ w',
    extract_sms_messages E output_file w = Fault w' ∧
    calls w' = calls w ++ ["extract_sms_messages"; "encrypt_file"].
Proof.
  intros Hu Hlo Hremote [Hlopen Hlwrite] Hdb Hopen Hdecode Hseal.
  unfold extract_sms_messages. unfold bind at 1. unfold enter, modify at 1.
  unfold bind at 1.
  rewrite (read_udid_ok (set_calls (calls w ++ ["extract_sms_messages"]) w))
    by (by destruct w).
  replace (udid_string (set_calls (calls w ++ ["extract_sms_messages"]) w))
    with (udid_string w) by (by destruct w).
  change (snprintf MAX_FILENAME_LEN (fmt_s (udid_string w) +:+ "_sms.db"))
    with (local_copy w).
  change (snprintf MAX_FILENAME_LEN (output_file +:+ ".enc")) with (sealed_name output_file).
  change "/var/mobile/Library/SMS/sms.db" with remote_store.
  set (local := local_copy w) in *. set (enc := sealed_name output_file) in *.
  clearbody local enc.
  destruct w as [d l a u h f c cs]. pad_heap.
  unfold copy_file, sqlite3_open, sqlite3_prepare_v2, fopen_w, fclose, remove.
  unfold_state. cbn.
  rewrite Hremote. cbn. rewrite Hlopen. cbn. rewrite Hlwrite. cbn.
  erewrite fwrite_existing by (cbn; apply lookup_insert_eq).
  rewrite Hlwrite. unfold set_files. cbn. rewrite insert_insert_eq.
  heap_step. rewrite Hdb. cbn. rewrite Hopen. cbn.
  rewrite lookup_insert_ne by congruence. rewrite lookup_insert_eq. cbn.
  change (EmptyString +:+ bytes) with bytes.
  rewrite Hdecode. cbn. heap_step.
  destruct (fwrite_ok E output_file) eqn:Hout.
  all: erewrite fprintf_existing by (cbn; apply lookup_insert_eq).
  all: rewrite Hout.
  all: erewrite write_rows_existing by (cbn; apply lookup_insert_eq).
  all: rewrite Hout; unfold set_files; cbn; repeat heap_step.
  all: match goal with |- context [encrypt_file E ?i ?o ?w] =>
         destruct (encrypt_file E i o w) as [[] w''|w''] eqn:Henc end.
  all: try (exfalso; apply Hseal; by eapply encrypt_file_done).
  all: exists w''; split; [done|].
  all: apply encrypt_file_fault in Henc; cbn in Henc.
  all: by rewrite Henc, <- (assoc_L (++)).
Qed.

(** C3. A run in which the session opens and the message extractor
    fails in its seal step - the table cannot be opened for reading, the
    sealed file cannot be opened, or no cipher context is allocated -
    does not return: it stops inside [encrypt_file], which checks none of
    the three, and the inventory extractor, the report synthesizer and
    the session close are never entered. *)
Theorem seal_failure_aborts_the_run disk bytes db :
  open_succeeds E = true →
  remote_file E remote_store = Some bytes →
  writable E (raw_copy_name E) →
  sqlite3_open_ok E = true →
  fopen_w_ok E "sms_messages.csv" = true →
  sqlite3_decode E bytes = Some db →
  ¬ (fopen_r_ok E "sms_messages.csv" = true ∧ fopen_w_ok E "sms_messages.csv.enc" = true ∧
     cipher_ctx_new_ok E = true) →
  ∃ w,
    main E (init_world disk) = Fault w ∧
    calls w = ["connect_to_device"; "extract_sms_messages"; "encrypt_file"] ∧
    ("extract_installed_apps" ∉ calls w) ∧
    ("generate_report" ∉ calls w) ∧
    ("disconnect_from_device" ∉ calls w).
Proof.
  intros Hopen Hremote Hlocal Hdb Htable Hdecode Hseal.
  pose proof (connect_code (init_world disk)) as C.
  destruct (connect_to_device E (init_world disk)) as [rc w1|] eqn:H1; [|done].
  destruct C as [[-> _] | [_ Hno]]; [|congruence].
  pose proof (connect_spec E (init_world disk)) as C. rewrite H1 in C.
  destruct C as (_ & _ & Cs). destruct (Cs eq_refl eq_refl) as [So _].
  pose proof (print_connected_frame w1) as P.
  destruct (print_connected w1) as [[] w1'|] eqn:H2.
  2: { exfalso. apply P. by destruct So as (? & ? & ? & ? & ? & ? & ? & ? & ? & ?). }
  clear P. destruct (session_after_connect E disk w1 w1' H1 H2) as (S1 & U1 & _ & C1).
  assert (udid_ok w1') as Uok1
    by (by destruct S1 as (? & ? & ? & ? & ? & ? & ? & ? & ? & ?)).
  assert (local_copy w1' = raw_copy_name E) as Hname
    by (by unfold local_copy, raw_copy_name; rewrite U1).
  destruct (sms_seal_fault "sms_messages.csv" w1' bytes db) as (w & H3 & Hcalls); try done.
  { apply local_copy_fresh. in_list. }
  { by rewrite Hname. }
  exists w. split.
  { unfold main, bind. rewrite H1. cbn [Z.eqb negb]. by rewrite H2, H3. }
  rewrite Hcalls, C1. cbn. split; [done|].
  repeat split; intros Hin; repeat (apply elem_of_cons in Hin as [Hin|Hin]; [discriminate|]);
    by apply elem_of_nil in Hin.
Qed.

(** X26. When the session cannot be opened [main] returns 1 at once:
    nothing is extracted, no report is written, the session is not
    closed, and the disk is as it was. *)
Theorem main_stops_after_a_failed_open disk :
  open_succeeds E = false →
  ∃ w,
    main E (init_world disk) = Done 1 w ∧
    calls w = ["connect_to_device"] ∧
    files w = disk.
Proof.
  intros Hno.
  pose proof (connect_code (init_world disk)) as C.
  pose proof (connect_spec E (init_world disk)) as S.
  unfold main, bind.
  destruct (connect_to_device E (init_world disk)) as [rc w1|]; [|done].
  destruct C as [[_ Hok] | [-> _]]; [congruence|].
  destruct S as (Sf & Sc & _). cbn. by exists w1.
Qed.

(** X27. The exit code of [main] reports the open and nothing else: a run
    that returns returned 0 exactly when the session opened, whatever
    became of the extractions and the report, and 1 otherwise. *)
Theorem main_exit_code_reports_the_open_only disk r w :
  main E (init_world disk) = Done r w →
  (r = 0 ∧ open_succeeds E = true) ∨ (r = 1 ∧ open_succeeds E = false).
Proof.
  pose proof (connect_code (init_world disk)) as C.
  unfold main. unfold bind at 1.
  destruct (connect_to_device E (init_world disk)) as [rc w1|]; [|done].
  destruct C as [[-> Hok] | [-> Hno]]; cbn [Z.eqb negb].
  - intros Hrun. left. split; [|done]. unfold bind in Hrun.
    repeat match type of Hrun with
           | match ?m with Done _ _ => _ | Fault _ => _ end = _ =>
               destruct m; [|discriminate]
           end.
    by injection Hrun.
  - intros [= <- <-]. by right.
Qed.

(** X28. A run that does not return stopped inside the seal step of the
    message extractor, and only because the table could not be opened
    for reading, the sealed file could not be opened, or no cipher
    context was allocated: every other step of [main] returns. *)
Theorem main_stops_only_while_sealing disk w :
  main E (init_world disk) = Fault w →
  calls w = ["connect_to_device"; "extract_sms_messages"; "encrypt_file"] ∧
  ¬ (fopen_r_ok E "sms_messages.csv" = true ∧ fopen_w_ok E "sms_messages.csv.enc" = true ∧
     cipher_ctx_new_ok E = true).
Proof.
  intros Hrun. unfold main in Hrun. unfold bind at 1 in Hrun.
  pose proof (connect_spec E (init_world disk)) as C.
  destruct (connect_to_device E (init_world disk)) as [rc w1|] eqn:H1; [|done].
  destruct (Z.eqb_spec rc 0) as [-> | Hrc]; cbn [negb] in Hrun; [|discriminate].
  destruct C as (Cf & Cc & Cs). destruct (Cs eq_refl eq_refl) as [So Su].
  assert (udid_ok w1) as U1 by (by destruct So as (? & ? & ? & ? & ? & ? & ? & ? & ? & ?)).
  unfold bind at 1 in Hrun.
  pose proof (print_connected_frame w1) as P.
  destruct (print_connected w1) as [[] w1'|] eqn:H2; [|done].
  destruct (session_after_connect E disk w1 w1' H1 H2) as (S1 & _ & _ & C1).
  assert (udid_ok w1') as U1' by (by destruct S1 as (? & ? & ? & ? & ? & ? & ? & ? & ? & ?)).
  unfold bind at 1 in Hrun.
  destruct (extract_sms_messages E "sms_messages.csv" w1') as [r2 w2|] eqn:H3.
  - exfalso.
    pose proof (sms_spec E "sms_messages.csv" w1') as M. rewrite H3 in M.
    destruct M as (Me & _).
    assert (session_open w2) as S2 by (by eapply session_open_extends).
    destruct (pipeline_tail E w2 S2) as (r & w3 & w4 & w5 & H4 & H5 & H6 & _).
    unfold bind in Hrun. rewrite H4, H5, H6 in Hrun. discriminate.
  - injection Hrun as <-.
    apply sms_fault in H3 as [Hcalls Hwhy]; [|done|by vm_compute].
    by rewrite Hcalls, C1.
Qed.

(** X29. The run in which nothing fails, from any disk: [main] returns 0
    and leaves the sealed message table, the fetched copy of the store,
    the inventory and the report, with the contents below; the plaintext
    table is gone and no other file of the disk was touched. *)
Theorem main_success_leaves_exactly_these_files disk bytes db listing :
  open_succeeds E = true →
  remote_file E remote_store = Some bytes →
  writable E (raw_copy_name E) →
  sqlite3_open_ok E = true →
  sqlite3_decode E bytes = Some db →
  writable E "sms_messages.csv" →
  seal_unhindered E "sms_messages.csv" "sms_messages.csv.enc" →
  inventory_succeeds E = true →
  instproxy_browse E = Some listing →
  fwrite_ok E "installed_apps.csv" = true →
  writable E "forensic_report.txt" →
  ∃ w,
    main E (init_world disk) = Done 0 w ∧
    files w !! "sms_messages.csv.enc" =
      Some (sealed E (("Date,Phone Number,Message" +:+ LF) +:+
                      concat_s (map row_text (run_query E db)))) ∧
    files w !! "sms_messages.csv" = None ∧
    files w !! raw_copy_name E = Some bytes ∧
    files w !! "installed_apps.csv" =
      Some ("App Name,Bundle ID,Version" +:+ LF +:+
            concat_s (map app_row_text (filter app_complete (array_items listing)))) ∧
    files w !! "forensic_report.txt" = Some (manifest E (device_udid E)) ∧
    (∀ p, p ∉ ["sms_messages.csv.enc"; "sms_messages.csv"; raw_copy_name E;
               "installed_apps.csv"; "forensic_report.txt"] →
          files w !! p = disk !! p).
Proof.
  intros Hopen Hremote [Hlopen Hlwrite] Hdb Hdecode [Htopen Htwrite] Hseal
    Hinv Hlist Hawrite [Hropen Hrwrite].
  (* the session opens *)
  pose proof (connect_code (init_world disk)) as C.
  destruct (connect_to_device E (init_world disk)) as [rc w1|] eqn:H1; [|done].
  destruct C as [[-> _] | [_ Hno]]; [|congruence].
  pose proof (connect_spec E (init_world disk)) as C. rewrite H1 in C.
  destruct C as (_ & _ & Cs). destruct (Cs eq_refl eq_refl) as [So _].
  pose proof (print_connected_frame w1) as P.
  destruct (print_connected w1) as [[] w1'|] eqn:H2.
  2: { exfalso. apply P. by destruct So as (? & ? & ? & ? & ? & ? & ? & ? & ? & ?). }
  clear P. destruct (session_after_connect E disk w1 w1' H1 H2) as (S1 & U1 & F1 & _).
  assert (udid_ok w1') as Uok1
    by (by destruct S1 as (? & ? & ? & ? & ? & ? & ? & ? & ? & ?)).
  assert (local_copy w1' = raw_copy_name E) as Hname
    by (by unfold local_copy, raw_copy_name; rewrite U1).
  assert (∀ name, name ∈ ["sms_messages.csv"; sealed_name "sms_messages.csv";
                          "installed_apps.csv"; "forensic_report.txt"] →
                  raw_copy_name E ≠ name) as Hfresh
    by (intros name; rewrite <- Hname; apply local_copy_fresh).
  (* the messages *)
  destruct (sms_success_run E "sms_messages.csv" w1' bytes db)
    as (w2 & H3 & Menc & Mgone & Mcopy & Mrest & _); try done.
  { rewrite Hname. apply Hfresh. in_list. }
  { rewrite Hname. apply Hfresh. in_list. }
  { by rewrite Hname. }
  { by rewrite Hname. }
  rewrite Hname in Mcopy, Mrest.
  change (sealed_name "sms_messages.csv") with "sms_messages.csv.enc" in *.
  pose proof (sms_spec E "sms_messages.csv" w1') as M. rewrite H3 in M.
  destruct M as (Me & _).
  assert (session_open w2) as S2 by (by eapply session_open_extends).
  assert (udid_ok w2) as Uok2
    by (by destruct S2 as (? & ? & ? & ? & ? & ? & ? & ? & ? & ?)).
  (* the inventory, the report and the close *)
  destruct (pipeline_tail E w2 S2)
    as (r & w3 & w4 & w5 & H4 & H5 & H6 & Ae & Fa & Fr & Rm & Fd & _).
  pose proof (inventory_code E w2) as I. rewrite H4 in I.
  destruct I as ([[-> _] | (_ & Hno & _)] & _); [|congruence].
  pose proof (apps_spec E w2) as A. rewrite H4 in A.
  destruct A as (_ & _ & _ & A). destruct (A eq_refl) as (_ & listing' & Hlist' & Arows).
  rewrite Hlist in Hlist'. injection Hlist' as <-. specialize (Arows Hawrite).
  specialize (Rm Hropen Hrwrite).
  rewrite (udid_string_extends w2 w3), (udid_string_extends w1' w2), U1 in Rm by done.
  exists (set_console (console w5 ++ ["Disconnected from iOS device." +:+ LF]) w5).
  split; [by eapply main_unfold|].
  replace (files (set_console (console w5 ++ ["Disconnected from iOS device." +:+ LF]) w5))
    with (files w4) by (by destruct w5).
  split; [by rewrite Fr, Fa|].
  split; [by rewrite Fr, Fa|].
  split; [rewrite Fr, Fa; [done|..]; apply Hfresh; in_list|].
  split; [by rewrite Fr|].
  split; [done|].
  intros p Hp.
  rewrite Fr, Fa, Mrest, F1; [done|..]; intros ->; apply Hp; in_list.
Qed.

End MainMore.

(** ** The further properties, run *)

Lemma connect_success_witness :
  ∃ w',
    connect_to_device all_well (init_world ∅) = Done 0 w' ∧
    heap w' = heap (init_world ∅) ++ [Some ODevice; Some OLockdown] ++ udid_cell all_well ++
              [None; Some OAfc] ∧
    device w' = Some (length (heap (init_world ∅))) ∧
    lockdown w' = Some (length (heap (init_world ∅)) + 1)%nat ∧
    afc w' = Some (length (heap (init_world ∅)) + 3 + length (udid_cell all_well))%nat ∧
    udid w' = match device_udid all_well with
              | Some _ => Some (length (heap (init_world ∅)) + 2)%nat
              | None => udid (init_world ∅)
              end ∧
    files w' = files (init_world ∅) ∧
    console w' = console (init_world ∅).
Proof. apply (connect_success_state all_well (init_world ∅)). reflexivity. Defined.

Lemma discovery_failure_witness :
  connect_to_device no_device (init_world ∅) =
  Done (-1) (set_console (console (init_world ∅) ++ ["Error: Unable to connect to device." +:+ LF])
               (set_calls (calls (init_world ∅) ++ ["connect_to_device"]) (init_world ∅))).
Proof. apply (connect_discovery_failure no_device (init_world ∅)). reflexivity. Defined.

Lemma handshake_failure_witness :
  ∃ w',
    connect_to_device handshake_refused (init_world ∅) = Done (-1) w' ∧
    heap w' = heap (init_world ∅) ++ [None] ∧
    device w' = Some (length (heap (init_world ∅))) ∧
    lockdown w' = lockdown (init_world ∅) ∧ afc w' = afc (init_world ∅) ∧
    udid w' = udid (init_world ∅) ∧
    files w' = files (init_world ∅).
Proof. apply (connect_handshake_failure handshake_refused (init_world ∅)); reflexivity. Defined.

Lemma service_failure_witness :
  ∃ w',
    connect_to_device afc_service_refused (init_world ∅) = Done (-1) w' ∧
    heap w' = heap (init_world ∅) ++ [None; None] ++ udid_cell afc_service_refused ∧
    afc w' = afc (init_world ∅) ∧
    files w' = files (init_world ∅).
Proof. apply (connect_service_failure afc_service_refused (init_world ∅)); reflexivity. Defined.

Lemma open_then_close_witness :
  ∃ w1 w2 n,
    connect_to_device all_well (init_world ∅) = Done 0 w1 ∧
    disconnect_from_device w1 = Done () w2 ∧
    heap w2 = heap (init_world ∅) ++ replicate n None ∧
    files w2 = files (init_world ∅).
Proof. apply (open_then_close_leaks_nothing all_well (init_world ∅)); reflexivity. Defined.

Lemma disconnect_releases_witness :
  ∃ w',
    disconnect_from_device (greeted all_well ∅) = Done () w' ∧
    afc w' = afc (greeted all_well ∅) ∧ lockdown w' = lockdown (greeted all_well ∅) ∧
    device w' = device (greeted all_well ∅) ∧ udid w' = udid (greeted all_well ∅) ∧
    length (heap w') = length (heap (greeted all_well ∅)) ∧
    (∀ i, heap w' !! i =
          if decide (Some i = afc (greeted all_well ∅) ∨ Some i = lockdown (greeted all_well ∅) ∨
                     Some i = device (greeted all_well ∅) ∨ Some i = udid (greeted all_well ∅))
          then (λ _, None) <$> heap (greeted all_well ∅) !! i
          else heap (greeted all_well ∅) !! i) ∧
    files w' = files (greeted all_well ∅) ∧ console w' = console (greeted all_well ∅).
Proof.
  apply (disconnect_releases_the_session_only (greeted all_well ∅)).
  exists 0%nat, 1%nat, 4%nat. vm_compute.
  repeat split. exists "00008030-001C2D3E4F5A". reflexivity.
Defined.

Lemma close_after_failed_open_witness :
  ∃ w1 w2,
    connect_to_device afc_service_refused (init_world ∅) = Done (-1) w1 ∧
    disconnect_from_device w1 = Fault w2.
Proof.
  apply (close_after_failed_open_releases_twice afc_service_refused (init_world ∅));
    reflexivity.
Defined.

Lemma whole_input_witness :
  ∃ w' body,
    encrypt_file all_well "sms_messages.csv" "sms_messages.csv.enc"
      (init_world {["sms_messages.csv" := "Date,Phone Number,Message"]}) = Done () w' ∧
    files w' !! "sms_messages.csv.enc" =
      Some (body +:+ evp_final all_well (cipher_key all_well) None "Date,Phone Number,Message").
Proof.
  apply (encrypt_file_closes_over_whole_input all_well
           "sms_messages.csv" "sms_messages.csv.enc"
           (init_world {["sms_messages.csv" := "Date,Phone Number,Message"]})
           "Date,Phone Number,Message").
  - discriminate.
  - vm_compute. reflexivity.
  - reflexivity.
  - reflexivity.
  - reflexivity.
  - reflexivity.
Defined.

Lemma short_input_witness :
  ∃ w',
    encrypt_file all_well "sms_messages.csv" "sms_messages.csv.enc"
      (init_world {["sms_messages.csv" := "Date,Phone Number,Message"]}) = Done () w' ∧
    files w' !! "sms_messages.csv.enc" =
      Some ((if (String.length "Date,Phone Number,Message" =? 0)%nat then EmptyString
             else evp_update all_well (cipher_key all_well) None EmptyString
                    "Date,Phone Number,Message") +:+
            evp_final all_well (cipher_key all_well) None "Date,Phone Number,Message").
Proof.
  apply (encrypt_file_short_input all_well "sms_messages.csv" "sms_messages.csv.enc"
           (init_world {["sms_messages.csv" := "Date,Phone Number,Message"]})
           "Date,Phone Number,Message").
  - discriminate.
  - vm_compute. reflexivity.
  - vm_compute. lia.
  - reflexivity.
  - reflexivity.
  - reflexivity.
  - reflexivity.
Defined.

Lemma key_past_the_literal_witness :
  ∃ w' body,
    encrypt_file all_well "sms_messages.csv" "sms_messages.csv.enc"
      (init_world {["sms_messages.csv" := "Date,Phone Number,Message"]}) = Done () w' ∧
    files w' !! "sms_messages.csv.enc" =
      Some (body +:+
            evp_final all_well
              (ENCRYPTION_KEY +:+ String "000"%char (take_s 8 (rodata_tail all_well)))
              None "Date,Phone Number,Message") ∧
    encrypt_file (with_tail "rodata..and what follows" all_well)
      "sms_messages.csv" "sms_messages.csv.enc"
      (init_world {["sms_messages.csv" := "Date,Phone Number,Message"]}) = Done () w'.
Proof.
  apply (encrypt_file_key_runs_past_the_literal all_well
           "sms_messages.csv" "sms_messages.csv.enc"
           (init_world {["sms_messages.csv" := "Date,Phone Number,Message"]})
           "Date,Phone Number,Message" "rodata..and what follows").
  - discriminate.
  - vm_compute. reflexivity.
  - reflexivity.
  - reflexivity.
  - reflexivity.
  - reflexivity.
  - reflexivity.
Defined.

Lemma encrypt_file_output_only_witness :
  ∃ w',
    encrypt_file sealed_file_unwritable "sms_messages.csv" "sms_messages.csv.enc"
      (init_world {["sms_messages.csv" := "Date,Phone Number,Message"]}) = Done () w' ∧
    files w' !! "sms_messages.csv.enc" =
      Some (if fwrite_ok sealed_file_unwritable "sms_messages.csv.enc"
            then sealed sealed_file_unwritable "Date,Phone Number,Message"
            else EmptyString) ∧
    files w' !! "sms_messages.csv" = Some "Date,Phone Number,Message" ∧
    (∀ p, p ≠ "sms_messages.csv.enc" →
          files w' !! p =
          files (init_world {["sms_messages.csv" := "Date,Phone Number,Message"]}) !! p) ∧
    heap w' = heap (init_world {["sms_messages.csv" := "Date,Phone Number,Message"]}) ∧
    console w' = console (init_world {["sms_messages.csv" := "Date,Phone Number,Message"]}).
Proof.
  apply (encrypt_file_changes_the_output_only sealed_file_unwritable
           "sms_messages.csv" "sms_messages.csv.enc"
           (init_world {["sms_messages.csv" := "Date,Phone Number,Message"]})
           "Date,Phone Number,Message").
  - discriminate.
  - vm_compute. reflexivity.
  - reflexivity.
  - reflexivity.
  - reflexivity.
Defined.

Lemma onto_itself_witness :
  ∃ w',
    encrypt_file all_well "table.csv" "table.csv"
      (init_world {["table.csv" := "Date,Phone Number,Message"]}) = Done () w' ∧
    files w' !! "table.csv" =
      Some (if fwrite_ok all_well "table.csv"
            then evp_final all_well (cipher_key all_well) None EmptyString
            else EmptyString).
Proof.
  apply (encrypt_file_onto_itself all_well "table.csv"
           (init_world {["table.csv" := "Date,Phone Number,Message"]})
           "Date,Phone Number,Message").
  - vm_compute. reflexivity.
  - reflexivity.
  - reflexivity.
  - reflexivity.
Defined.

Lemma message_listed_witness :
  ∃ sender,
    (m_date (MessageRow (Some 100) (Some 7) (Some "hi")) ≫= sqlite3_datetime unknown_sender,
     sender, m_text (MessageRow (Some 100) (Some 7) (Some "hi")))
      ∈ run_query unknown_sender store_with_unknown_sender ∧
    ((∃ h, h ∈ handle store_with_unknown_sender ∧
           m_handle_id (MessageRow (Some 100) (Some 7) (Some "hi")) = Some (h_ROWID h) ∧
           sender = h_id h) ∨
     (join_matches (MessageRow (Some 100) (Some 7) (Some "hi"))
        (handle store_with_unknown_sender) = [] ∧ sender = None)).
Proof.
  apply (every_message_is_listed unknown_sender store_with_unknown_sender
           (MessageRow (Some 100) (Some 7) (Some "hi"))).
  vm_compute. constructor.
Defined.

Lemma one_row_per_message_witness :
  map (λ r : result_row, (r.1.1, r.2)) (run_query all_well store_of_three) ≡ₚ
  map (λ m, (m_date m ≫= sqlite3_datetime all_well, m_text m)) (message store_of_three).
Proof.
  apply (one_row_per_message_when_rowid_is_key all_well store_of_three).
  vm_compute. apply NoDup_singleton.
Defined.

Lemma extract_sms_success_witness :
  ∃ w',
    extract_sms_messages all_well "sms_messages.csv" (greeted all_well ∅) = Done 0 w' ∧
    files w' !! sealed_name "sms_messages.csv" =
      Some (sealed all_well (("Date,Phone Number,Message" +:+ LF) +:+
                             concat_s (map row_text (run_query all_well store_of_three)))) ∧
    files w' !! "sms_messages.csv" = None ∧
    files w' !! local_copy (greeted all_well ∅) = Some "SQLite format 3" ∧
    (∀ p, p ≠ sealed_name "sms_messages.csv" → p ≠ "sms_messages.csv" →
          p ≠ local_copy (greeted all_well ∅) →
          files w' !! p = files (greeted all_well ∅) !! p) ∧
    heap w' = heap (greeted all_well ∅) ++ [None; None].
Proof.
  apply (extract_sms_messages_success all_well "sms_messages.csv" (greeted all_well ∅)
           "SQLite format 3" store_of_three).
  - vm_compute. exists "00008030-001C2D3E4F5A". reflexivity.
  - vm_compute. discriminate.
  - vm_compute. discriminate.
  - vm_compute. discriminate.
  - reflexivity.
  - reflexivity.
  - reflexivity.
  - reflexivity.
  - reflexivity.
  - reflexivity.
  - reflexivity.
  - repeat split; reflexivity.
Defined.

Lemma extract_sms_open_failure_witness :
  ∃ w',
    extract_sms_messages store_unopenable "sms_messages.csv" (init_world ∅) = Done (-1) w' ∧
    heap w' = heap (init_world ∅) ++ [Some OSqlite] ∧
    files w' = <[local_copy (init_world ∅) := "SQLite format 3"]> (files (init_world ∅)).
Proof.
  apply (extract_sms_open_failure_keeps_the_handle store_unopenable "sms_messages.csv"
           (init_world ∅) "SQLite format 3");
    vm_compute; reflexivity.
Defined.

Lemma extract_sms_prepare_failure_witness :
  ∃ w',
    extract_sms_messages store_unreadable "sms_messages.csv" (init_world ∅) = Done (-1) w' ∧
    heap w' = heap (init_world ∅) ++ [None] ∧
    files w' = <["sms_messages.csv" := EmptyString]>
                 (<[local_copy (init_world ∅) := "SQLite format 3"]> (files (init_world ∅))) ∧
    calls w' = calls (init_world ∅) ++ ["extract_sms_messages"].
Proof.
  apply (extract_sms_prepare_failure_leaves_empty_table store_unreadable "sms_messages.csv"
           (init_world ∅) "SQLite format 3").
  - vm_compute. exact I.
  - vm_compute. discriminate.
  - reflexivity.
  - reflexivity.
  - reflexivity.
  - reflexivity.
  - reflexivity.
  - reflexivity.
Defined.

Lemma sealed_file_lost_witness :
  sealed_name (name_of_length 255) = name_of_length 255 ∧
  files (final_world (extract_sms_messages all_well (name_of_length 255) (init_world ∅)))
    !! sealed_name (name_of_length 255) = None.
Proof.
  apply (sealed_file_lost_for_a_255_character_name all_well (name_of_length 255)
           (init_world ∅));
    vm_compute; reflexivity.
Defined.

Lemma inventory_write_failure_witness :
  ∃ w',
    extract_installed_apps inventory_unwritable (init_world ∅) = Done 0 w' ∧
    files w' !! "installed_apps.csv" = Some EmptyString.
Proof.
  apply (inventory_write_failure_is_silent inventory_unwritable (init_world ∅));
    vm_compute; reflexivity.
Defined.

Lemma report_open_failure_witness :
  generate_report report_unopenable "forensic_report.txt" (greeted report_unopenable ∅) =
  Done () (set_console (console (greeted report_unopenable ∅) ++
                        ["Error: Unable to create report file." +:+ LF])
             (set_calls (calls (greeted report_unopenable ∅) ++ ["generate_report"])
                (greeted report_unopenable ∅))).
Proof.
  apply (report_open_failure report_unopenable "forensic_report.txt"
           (greeted report_unopenable ∅)).
  reflexivity.
Defined.

Lemma main_failed_open_witness :
  ∃ w,
    main handshake_refused (init_world ∅) = Done 1 w ∧
    calls w = ["connect_to_device"] ∧
    files w = ∅.
Proof. apply (main_stops_after_a_failed_open handshake_refused ∅). reflexivity. Defined.

Lemma main_exit_code_witness :
  (0 = 0 ∧ open_succeeds fetch_fails = true) ∨ (0 = 1 ∧ open_succeeds fetch_fails = false).
Proof.
  apply (main_exit_code_reports_the_open_only fetch_fails ∅ 0
           (final_world (main fetch_fails (init_world ∅)))).
  vm_compute. reflexivity.
Defined.

Lemma main_stops_while_sealing_witness :
  calls (final_world (main no_cipher_context (init_world ∅))) =
    ["connect_to_device"; "extract_sms_messages"; "encrypt_file"] ∧
  ¬ (fopen_r_ok no_cipher_context "sms_messages.csv" = true ∧
     fopen_w_ok no_cipher_context "sms_messages.csv.enc" = true ∧
     cipher_ctx_new_ok no_cipher_context = true).
Proof.
  apply (main_stops_only_while_sealing no_cipher_context ∅).
  vm_compute. reflexivity.
Defined.

Lemma main_success_witness :
  ∃ w,
    main all_well (init_world ∅) = Done 0 w ∧
    files w !! "sms_messages.csv.enc" =
      Some (sealed all_well (("Date,Phone Number,Message" +:+ LF) +:+
                             concat_s (map row_text (run_query all_well store_of_three)))) ∧
    files w !! "sms_messages.csv" = None ∧
    files w !! raw_copy_name all_well = Some "SQLite format 3" ∧
    files w !! "installed_apps.csv" =
      Some ("App Name,Bundle ID,Version" +:+ LF +:+
            concat_s (map app_row_text (filter app_complete (array_items listing_A_B_C)))) ∧
    files w !! "forensic_report.txt" = Some (manifest all_well (device_udid all_well)) ∧
    (∀ p, p ∉ ["sms_messages.csv.enc"; "sms_messages.csv"; raw_copy_name all_well;
               "installed_apps.csv"; "forensic_report.txt"] →
          files w !! p = (∅ : gmap string string) !! p).
Proof.
  apply (main_success_leaves_exactly_these_files all_well ∅ "SQLite format 3"
           store_of_three listing_A_B_C);
    try reflexivity; repeat split; reflexivity.
Defined.

Lemma seal_failure_witness :
  ∃ w,
    main sealed_file_unopenable (init_world ∅) = Fault w ∧
    calls w = ["connect_to_device"; "extract_sms_messages"; "encrypt_file"] ∧
    ("extract_installed_apps" ∉ calls w) ∧
    ("generate_report" ∉ calls w) ∧
    ("disconnect_from_device" ∉ calls w).
Proof.
  apply (seal_failure_aborts_the_run sealed_file_unopenable ∅ "SQLite format 3"
           store_of_three).
  - reflexivity.
  - reflexivity.
  - split; reflexivity.
  - reflexivity.
  - reflexivity.
  - reflexivity.
  - intros (_ & Hw & _). vm_compute in Hw. discriminate.
Defined.
